(** * Contact manager (main.py): a shallow embedding and its properties

    The development follows the layout of [main.py]:
    - [Re]: the fragment of Python's backtracking [re] engine that the three
      patterns of the program use;
    - [Str]: the [str] methods the program calls;
    - [Calendar]: the part of [datetime] the program uses ([strptime] with
      the format [%d.%m.%Y], [replace(year=...)], comparison, subtraction
      and [timedelta.days]);
    - [Eff]: a small state / exception / standard-output monad in which the
      methods are written;
    - the classes [Field], [Name], [Phone], [Birthday], [Record] and
      [AddressBook];
    - [Text] ([split], [strip], [lower], [join]) and the body of the loop of
      [main], with the builtin [int] as a parameter; [save_data] and
      [load_data], which pickle the book to a file, are not modelled.

    Conventions.
    - A Python [str] is a [string]; an [ascii] stands for the code point of
      the same number, so the model covers the strings whose code points are
      below 256.  On that range the Unicode tables are small and are written
      out: [\d] matches [0-9] only, [str.isdigit] further accepts the
      superscripts U+00B2, U+00B3 and U+00B9.
    - [datetime.now()] reads the wall clock; every function that calls it
      takes the reading as its argument [now].
    - [print] appends a line to the standard output carried by the monad.
    - Objects are values of the state: the program creates each [Name],
      [Phone], [Birthday] and [Record] once and keeps it in one place, so no
      two places of the state share an object. *)

From Stdlib Require Import String Ascii List ZArith Lia Bool.
From Stdlib Require Import Sorted Permutation.
Import ListNotations.

Local Open Scope string_scope.
Local Open Scope Z_scope.

(** ** Characters and [str] methods *)

Module Str.

Definition ord (c : ascii) : Z := Z.of_N (N_of_ascii c).

Definition chr (n : Z) : ascii := ascii_of_N (Z.to_N n).

(** Unicode category Nd, the class [\d] of a [str] pattern. *)
Definition is_decimal (c : ascii) : bool :=
  (48 <=? ord c) && (ord c <=? 57).

(** The characters for which [str.isdigit] holds: Nd and the superscript
    digits (Numeric_Type=Digit). *)
Definition is_digit (c : ascii) : bool :=
  is_decimal c || (ord c =? 178) || (ord c =? 179) || (ord c =? 185).

Fixpoint all (p : ascii -> bool) (s : string) : bool :=
  match s with
  | EmptyString => true
  | String c s' => p c && all p s'
  end.

Definition len (s : string) : Z := Z.of_nat (String.length s).

(** [s.isdigit()]: at least one character, and all of them digits. *)
Definition isdigit (s : string) : bool :=
  match s with
  | EmptyString => false
  | _ => all is_digit s
  end.

(** [s.isdecimal()], the reading of "decimal digit". *)
Definition isdecimal (s : string) : bool :=
  match s with
  | EmptyString => false
  | _ => all is_decimal s
  end.

Definition newline : ascii := chr 10.

(** [not s] for a [str]. *)
Definition falsy (s : string) : bool :=
  match s with
  | EmptyString => true
  | _ => false
  end.

End Str.

(** ** Regular expressions

    The constructs that occur in [^\d{10}$], [^\d{2}\.\d{2}\.\d{4}$] and in
    the pattern [_strptime] builds for [%d.%m.%Y].  Matching is by
    backtracking: [run r k s] lists, in the order the engine tries them,
    the ways [r] can match at the position where [k] characters have been
    consumed and [s] remains. *)

Module Re.

Inductive regex : Type :=
| Lit (c : ascii)             (* an escaped or plain character *)
| Digit                       (* \d *)
| Range (lo hi : ascii)       (* [lo-hi] *)
| Seq (r1 r2 : regex)
| Alt (r1 r2 : regex)         (* r1|r2 *)
| Times (n : nat) (r : regex) (* r{n} *)
| Caret                       (* ^ *)
| Dollar.                     (* $ *)

Definition pos : Type := (nat * string)%type.

Definition one_char (p : ascii -> bool) (k : nat) (s : string) : list pos :=
  match s with
  | String a s' => if p a then [(S k, s')] else []
  | EmptyString => []
  end.

Definition in_range (lo hi a : ascii) : bool :=
  (Str.ord lo <=? Str.ord a) && (Str.ord a <=? Str.ord hi).

(** [$] without MULTILINE: at the end of the string, and also just before
    a newline that is the last character. *)
Definition at_end (s : string) : bool :=
  match s with
  | EmptyString => true
  | String c EmptyString => Ascii.eqb c Str.newline
  | _ => false
  end.

Fixpoint run (r : regex) (k : nat) (s : string) : list pos :=
  match r with
  | Lit c => one_char (Ascii.eqb c) k s
  | Digit => one_char Str.is_decimal k s
  | Range lo hi => one_char (in_range lo hi) k s
  | Seq r1 r2 => flat_map (fun p => run r2 (fst p) (snd p)) (run r1 k s)
  | Alt r1 r2 => run r1 k s ++ run r2 k s
  | Times n r1 =>
      (fix rep (n : nat) (k : nat) (s : string) : list pos :=
         match n with
         | O => [(k, s)]
         | S n' => flat_map (fun p => rep n' (fst p) (snd p)) (run r1 k s)
         end) n k s
  | Caret => if Nat.eqb k 0 then [(k, s)] else []
  | Dollar => if at_end s then [(k, s)] else []
  end.

(** [re.match(r, s)]: the first way to match at the start of [s], as the
    number of characters matched and the rest; [None] when there is none. *)
Definition re_match (r : regex) (s : string) : option pos :=
  hd_error (run r 0%nat s).

(** [bool(re.match(r, s))]: a match object is truthy. *)
Definition matches (r : regex) (s : string) : bool :=
  match re_match r s with
  | Some _ => true
  | None => false
  end.

Fixpoint seq (rs : list regex) (last : regex) : regex :=
  match rs with
  | [] => last
  | r :: rs' => Seq r (seq rs' last)
  end.

End Re.

(** [r'^\d{10}$'] *)
Definition phone_pattern : Re.regex :=
  Re.seq [Re.Caret; Re.Times 10 Re.Digit] Re.Dollar.

(** [r'^\d{2}\.\d{2}\.\d{4}$'] *)
Definition birthday_pattern : Re.regex :=
  Re.seq [Re.Caret; Re.Times 2 Re.Digit; Re.Lit "."; Re.Times 2 Re.Digit;
          Re.Lit "."; Re.Times 4 Re.Digit] Re.Dollar.

(** ** Exceptions *)

Inductive exn : Type := ValueError | TypeError | AttributeError | KeyError.

Inductive outcome (A : Type) : Type :=
| Return (a : A)
| Raise (e : exn).

Arguments Return {A} a.
Arguments Raise {A} e.

(** ** The part of [datetime] the program uses *)

Module Calendar.

Record datetime : Type := mkdatetime {
  year : Z; month : Z; day : Z;
  hour : Z; minute : Z; second : Z; microsecond : Z
}.

Definition MINYEAR : Z := 1.
Definition MAXYEAR : Z := 9999.

Definition is_leap (y : Z) : bool :=
  (y mod 4 =? 0) && (negb (y mod 100 =? 0) || (y mod 400 =? 0)).

Definition DAYS_IN_MONTH : list Z :=
  [31; 28; 31; 30; 31; 30; 31; 31; 30; 31; 30; 31].

Definition DAYS_BEFORE_MONTH : list Z :=
  [0; 31; 59; 90; 120; 151; 181; 212; 243; 273; 304; 334].

Definition days_in_month (y m : Z) : Z :=
  if (m =? 2) && is_leap y then 29
  else nth (Z.to_nat (m - 1)) DAYS_IN_MONTH 0.

Definition days_before_year (y : Z) : Z :=
  let y' := y - 1 in y' * 365 + y' / 4 - y' / 100 + y' / 400.

Definition days_before_month (y m : Z) : Z :=
  nth (Z.to_nat (m - 1)) DAYS_BEFORE_MONTH 0
  + (if (2 <? m) && is_leap y then 1 else 0).

Definition ymd2ord (y m d : Z) : Z :=
  days_before_year y + days_before_month y m + d.

Definition toordinal (t : datetime) : Z :=
  ymd2ord (year t) (month t) (day t).

(** The range checks of the [date] and [datetime] constructors. *)
Definition check_date_fields (y m d : Z) : bool :=
  (MINYEAR <=? y) && (y <=? MAXYEAR) && (1 <=? m) && (m <=? 12)
  && (1 <=? d) && (d <=? days_in_month y m).

(** [t.replace(year=y)]: the constructor is run again on the new fields. *)
Definition replace_year (t : datetime) (y : Z) : outcome datetime :=
  if check_date_fields y (month t) (day t)
  then Return (mkdatetime y (month t) (day t)
                          (hour t) (minute t) (second t) (microsecond t))
  else Raise ValueError.

(** Comparison of naive datetimes: the field tuples, lexicographically. *)
Definition fields (t : datetime) : list Z :=
  [year t; month t; day t; hour t; minute t; second t; microsecond t].

Fixpoint lex (a b : list Z) : comparison :=
  match a, b with
  | [], [] => Eq
  | [], _ :: _ => Lt
  | _ :: _, [] => Gt
  | x :: a', y :: b' =>
      match x ?= y with
      | Eq => lex a' b'
      | c => c
      end
  end.

Definition cmp (a b : datetime) : comparison := lex (fields a) (fields b).

Definition lt (a b : datetime) : bool :=
  match cmp a b with Lt => true | _ => false end.

Definition le (a b : datetime) : bool :=
  match cmp a b with Gt => false | _ => true end.

(** [timedelta(days, seconds, microseconds)], normalised as the constructor
    does: [0 <= microseconds < 10^6] and [0 <= seconds < 86400]. *)
Record timedelta : Type := mktimedelta {
  days : Z; seconds : Z; microseconds : Z
}.

Definition normalize (d s us : Z) : timedelta :=
  let s' := s + us / 1000000 in
  mktimedelta (d + s' / 86400) (s' mod 86400) (us mod 1000000).

Definition second_of_day (t : datetime) : Z :=
  second t + minute t * 60 + hour t * 3600.

(** [a - b] for two datetimes. *)
Definition sub (a b : datetime) : timedelta :=
  normalize (toordinal a - toordinal b)
            (second_of_day a - second_of_day b)
            (microsecond a - microsecond b).

(** *** [datetime.strptime(s, "%d.%m.%Y")] *)

(** [3[0-1]|[1-2]\d|0[1-9]|[1-9]| [1-9]] *)
Definition directive_d : Re.regex :=
  Re.Alt (Re.Seq (Re.Lit "3") (Re.Range "0" "1"))
 (Re.Alt (Re.Seq (Re.Range "1" "2") Re.Digit)
 (Re.Alt (Re.Seq (Re.Lit "0") (Re.Range "1" "9"))
 (Re.Alt (Re.Range "1" "9")
         (Re.Seq (Re.Lit " ") (Re.Range "1" "9"))))).

(** [1[0-2]|0[1-9]|[1-9]] *)
Definition directive_m : Re.regex :=
  Re.Alt (Re.Seq (Re.Lit "1") (Re.Range "0" "2"))
 (Re.Alt (Re.Seq (Re.Lit "0") (Re.Range "1" "9"))
         (Re.Range "1" "9")).

(** [\d\d\d\d] *)
Definition directive_Y : Re.regex :=
  Re.Seq Re.Digit (Re.Seq Re.Digit (Re.Seq Re.Digit Re.Digit)).

(** The text a group captured: the characters between two positions of
    the subject [s]. *)
Definition group (s : string) (from to : Re.pos) : string :=
  substring (fst from) (fst to - fst from) s.

(** [(?P<d>...)\.(?P<m>...)\.(?P<Y>...)] run on [s]: every way to match,
    in the order of the engine, with the three groups and the end. *)
Definition format_regex (s : string)
  : list (string * string * string * Re.pos) :=
  let start : Re.pos := (0%nat, s) in
  flat_map (fun pd =>
  flat_map (fun p1 =>
  flat_map (fun pm =>
  flat_map (fun p2 =>
  map (fun pY =>
         (group s start pd, group s p1 pm, group s p2 pY, pY))
      (Re.run directive_Y (fst p2) (snd p2)))
    (Re.run (Re.Lit ".") (fst pm) (snd pm)))
    (Re.run directive_m (fst p1) (snd p1)))
    (Re.run (Re.Lit ".") (fst pd) (snd pd)))
    (Re.run directive_d 0%nat s).

(** [int(s)] on the text of a group: an optional leading blank, then
    decimal digits. *)
Fixpoint int_digits (acc : Z) (s : string) : Z :=
  match s with
  | EmptyString => acc
  | String c s' =>
      if Ascii.eqb c " " then int_digits acc s'
      else int_digits (10 * acc + (Str.ord c - 48)) s'
  end.

Definition int (s : string) : Z := int_digits 0 s.

Definition strptime (s : string) : outcome datetime :=
  match format_regex s with
  | [] => Raise ValueError            (* does not match format *)
  | (d, m, Y, fin) :: _ =>
      match snd fin with
      | String _ _ => Raise ValueError (* unconverted data remains *)
      | EmptyString =>
          if check_date_fields (int Y) (int m) (int d)
          then Return (mkdatetime (int Y) (int m) (int d) 0 0 0 0)
          else Raise ValueError        (* e.g. day is out of range *)
      end
  end.

(** *** [t.strftime('%Y-%m-%d')] *)

Definition digit (n : Z) : ascii := Str.chr (48 + n mod 10).

(** [n] in decimal on [w] characters, padded with zeros. *)
Fixpoint zfill (w : nat) (n : Z) : string :=
  match w with
  | O => EmptyString
  | S w' => zfill w' (n / 10) ++ String (digit n) EmptyString
  end.

(** [%Y] is rendered on four digits (for the years below 1000 the C
    library decides; the occurrence years of the program are current). *)
Definition strftime (t : datetime) : string :=
  zfill 4 (year t) ++ "-" ++ zfill 2 (month t) ++ "-" ++ zfill 2 (day t).

End Calendar.

(** ** Effects: object state, exceptions, standard output

    A method body is a computation on the state [S] of [self] (or, for one
    run on another object, on that object's state).  An exception keeps the
    state and the output reached when it was raised. *)

Module Eff.

Definition M (S A : Type) : Type :=
  S -> list string -> outcome A * S * list string.

Definition ret {S A} (a : A) : M S A := fun s o => (Return a, s, o).

Definition bind {S A B} (c : M S A) (k : A -> M S B) : M S B :=
  fun s o =>
    match c s o with
    | (Return a, s', o') => k a s' o'
    | (Raise e, s', o') => (Raise e, s', o')
    end.

Definition raise {S A} (e : exn) : M S A := fun s o => (Raise e, s, o).

Definition get {S} : M S S := fun s o => (Return s, s, o).

Definition put {S} (s : S) : M S unit := fun _ o => (Return tt, s, o).

Definition print {S} (line : string) : M S unit :=
  fun s o => (Return tt, s, (o ++ [line])%list).

(** An outcome computed without effects, as a statement. *)
Definition lift {S A} (r : outcome A) : M S A := fun s o => (r, s, o).

(** [try: c  except ...: h]; [handler e] is the body of the clause that
    catches [e], if there is one. *)
Definition try_except {S A} (c : M S A) (handler : exn -> option (M S A))
  : M S A :=
  fun s o =>
    match c s o with
    | (Raise e, s', o') =>
        match handler e with
        | Some h => h s' o'
        | None => (Raise e, s', o')
        end
    | r => r
    end.

Definition exn_eqb (a b : exn) : bool :=
  match a, b with
  | ValueError, ValueError | TypeError, TypeError
  | AttributeError, AttributeError | KeyError, KeyError => true
  | _, _ => false
  end.

(** [except (e1, ..., en): h] *)
Definition except {S A} (es : list exn) (h : M S A) (e : exn)
  : option (M S A) :=
  if existsb (exn_eqb e) es then Some h else None.

(** [C(args)]: [__init__] runs on a new object without attributes, and
    the object is the value of the call. *)
Definition new {S T} (blank : T) (init : M T unit) : M S T :=
  fun s o =>
    match init blank o with
    | (Return _, t, o') => (Return t, s, o')
    | (Raise e, _, o') => (Raise e, s, o')
    end.

(** [for x in xs: acc = body(x, acc)], where [acc] stands for the local
    variables the loop updates. *)
Fixpoint for_each {S X A} (xs : list X) (acc : A) (body : X -> A -> M S A)
  : M S A :=
  match xs with
  | [] => ret acc
  | x :: xs' => bind (body x acc) (fun acc' => for_each xs' acc' body)
  end.

End Eff.

Import Eff.

Declare Scope eff_scope.
Delimit Scope eff_scope with eff.
Notation "x <- c ;; k" := (bind c (fun x => k))
  (at level 61, c at next level, right associativity) : eff_scope.
Notation "c ;; k" := (bind c (fun _ => k))
  (at level 61, right associativity) : eff_scope.
Local Open Scope eff_scope.

(** ** [dict]: an insertion-ordered mapping, as an association list *)

Module Dict.

Section WithValue.
Context {V : Type}.

Fixpoint get (k : string) (d : list (string * V)) : option V :=
  match d with
  | [] => None
  | (k', v) :: d' => if String.eqb k' k then Some v else get k d'
  end.

(** [k in d] *)
Definition mem (k : string) (d : list (string * V)) : bool :=
  match get k d with Some _ => true | None => false end.

(** [d[k] = v]: an existing key keeps its place, a new one goes last. *)
Fixpoint set (k : string) (v : V) (d : list (string * V))
  : list (string * V) :=
  match d with
  | [] => [(k, v)]
  | (k', v') :: d' =>
      if String.eqb k' k then (k, v) :: d' else (k', v') :: set k v d'
  end.

(** [del d[k]] *)
Fixpoint del (k : string) (d : list (string * V)) : list (string * V) :=
  match d with
  | [] => []
  | (k', v') :: d' =>
      if String.eqb k' k then d' else (k', v') :: del k d'
  end.

(** [d.values()] *)
Definition values (d : list (string * V)) : list V := map snd d.

Definition keys (d : list (string * V)) : list string := map fst d.

End WithValue.

End Dict.

(** ** [input_error]

    The decorator: the wrapped function runs; a [ValueError] or [TypeError]
    it raises is caught, [message] is printed, and the call returns [None]. *)

Definition input_error {S Args : Type} (message : string)
  (func : Args -> M S unit) : Args -> M S unit :=
  fun args =>
    try_except (func args)
               (except [ValueError; TypeError] (print message)).

(** ** [Field], [Name], [Phone], [Birthday] *)

(** An instance has the attribute [value] once [Field.__init__] has run:
    [None] is an object on which it has not. *)
Record Field : Type := mkField { value : option string }.

Definition no_attributes : Field := mkField None.

(** [self.value], an [AttributeError] when the attribute is missing. *)
Definition getattr_value {S} (f : Field) : M S string :=
  match value f with
  | Some v => ret v
  | None => raise AttributeError
  end.

Definition Field__init__ (v : string) : M Field unit :=
  put (mkField (Some v)).

(** [str(field)] *)
Definition Field__str__ {S} (f : Field) : M S string := getattr_value f.

Definition Name__init__ : string -> M Field unit :=
  input_error "Name cannot be empty."
    (fun v => if Str.falsy v then raise ValueError else Field__init__ v).

Definition Name {S} (v : string) : M S Field :=
  new no_attributes (Name__init__ v).

Definition Phone__init__ : string -> M Field unit :=
  input_error "Phone number must be 10 digits."
    (fun v =>
       if negb (Re.matches phone_pattern v) then raise ValueError
       else Field__init__ v).

Definition Phone {S} (v : string) : M S Field :=
  new no_attributes (Phone__init__ v).

(** [Birthday] inherits [Field.__init__]. *)
Definition Birthday {S} (v : string) : M S Field :=
  new no_attributes (Field__init__ v).

Definition is_valid_format {S} (v : string) : M S bool :=
  ret (Re.matches birthday_pattern v).

Definition is_valid_date {S} (now : Calendar.datetime) (v : string)
  : M S bool :=
  try_except
    (birthday_date <- lift (Calendar.strptime v) ;;
     let current_date := now in
     ret (Calendar.le birthday_date current_date))
    (except [ValueError] (ret false)).

(** ** [Record] *)

Record Record_ : Type := mkRecord {
  name : Field;
  phones : list Field;
  birthday : option Field
}.

(** [Record(name)] *)
Definition Record__init__ {S} (n : string) : M S Record_ :=
  nm <- Name n ;;
  ret (mkRecord nm [] None).

Definition add_phone : string -> M Record_ unit :=
  input_error "Phone number must be 10 digits."
    (fun phone_number =>
       phone <- Phone phone_number ;;
       self <- get ;;
       put (mkRecord (name self) (phones self ++ [phone])%list (birthday self))).

(** ** [AddressBook] *)

Record AddressBook : Type := mkAddressBook {
  data : list (string * Record_)
}.

(** A method of the record stored under [k] called from a method of the
    book: the record is an object of the mapping, so what the call does to
    it is seen in place. *)
Definition on_record {A} (k : string) (m : M Record_ A) : M AddressBook A :=
  fun self o =>
    match Dict.get k (data self) with
    | None => (Raise KeyError, self, o)
    | Some r =>
        match m r o with
        | (res, r', o') => (res, mkAddressBook (Dict.set k r' (data self)), o')
        end
    end.

Definition add_record (record : Record_) : M AddressBook unit :=
  key <- getattr_value (name record) ;;
  self <- get ;;
  put (mkAddressBook (Dict.set key record (data self))).

Definition delete_record (n : string) : M AddressBook unit :=
  self <- get ;;
  if Dict.mem n (data self) then
    put (mkAddressBook (Dict.del n (data self))) ;;
    print ("Contact '" ++ n ++ "' deleted successfully.")
  else
    print "Contact not found.".

Definition find_record (n : string) : M AddressBook (option Record_) :=
  self <- get ;;
  ret (Dict.get n (data self)).

Definition add_birthday (now : Calendar.datetime) (n b : string)
  : M AddressBook unit :=
  ok_format <- is_valid_format b ;;
  if negb ok_format then
    print "Invalid date format. Use DD.MM.YYYY"
  else
    ok_date <- is_valid_date now b ;;
    if negb ok_date then
      print "Invalid date. Please enter a valid date."
    else
      self <- get ;;
      if Dict.mem n (data self) then
        bd <- Birthday b ;;
        on_record n (r <- get ;;
                     put (mkRecord (name r) (phones r) (Some bd))) ;;
        print ("Birthday added for contact '" ++ n ++ "'.")
      else
        print "Contact not found.".

Definition show_birthday (n : string) : M AddressBook unit :=
  self <- get ;;
  match Dict.get n (data self) with
  | Some (mkRecord _ _ (Some bd)) =>
      text <- Field__str__ bd ;;
      print (n ++ "'s birthday is on " ++ text)
  | _ => print "Birthday information not found."
  end.

(** The body of the loop of [birthdays]; [upcoming] is the list the loop
    appends to. *)
Definition birthdays_step {S} (now : Calendar.datetime) (days : Z)
  (record : Record_) (upcoming : list (string * Calendar.datetime))
  : M S (list (string * Calendar.datetime)) :=
  let current_date := now in
  match birthday record with
  | None => ret upcoming
  | Some bd =>
      try_except
        (text <- getattr_value bd ;;
         parsed <- lift (Calendar.strptime text) ;;
         this_year <- lift (Calendar.replace_year parsed
                              (Calendar.year current_date)) ;;
         birthday_date <-
           (if Calendar.lt this_year current_date
            then lift (Calendar.replace_year this_year
                         (Calendar.year current_date + 1))
            else ret this_year) ;;
         let days_until_birthday :=
           Calendar.days (Calendar.sub birthday_date current_date) in
         if (0 <=? days_until_birthday) && (days_until_birthday <=? days)
         then
           n <- getattr_value (name record) ;;
           ret (upcoming ++ [(n, birthday_date)])%list
         else ret upcoming)
        (except [ValueError]
           (n <- getattr_value (name record) ;;
            print ("Error processing birthday for " ++ n
                   ++ ". Invalid date format.") ;;
            ret upcoming))
  end.

(** [upcoming_birthdays] when the loop of [birthdays] ends. *)
Definition birthdays_loop (now : Calendar.datetime) (days : Z)
  : M AddressBook (list (string * Calendar.datetime)) :=
  self <- get ;;
  for_each (Dict.values (data self)) [] (birthdays_step now days).

(** [list.sort(key=lambda x: x[1])]: stable, ascending in the date. *)
Fixpoint insert_by_date (x : string * Calendar.datetime)
  (l : list (string * Calendar.datetime)) : list (string * Calendar.datetime) :=
  match l with
  | [] => [x]
  | y :: l' =>
      if Calendar.lt (snd x) (snd y) then x :: y :: l'
      else y :: insert_by_date x l'
  end.

Definition sort_by_date (l : list (string * Calendar.datetime))
  : list (string * Calendar.datetime) :=
  fold_left (fun sorted x => insert_by_date x sorted) l [].

(** [birthdays(days)]; the default of [days] is 7. *)
Definition birthdays (now : Calendar.datetime) (days : Z)
  : M AddressBook unit :=
  upcoming_birthdays <- birthdays_loop now days ;;
  for_each (sort_by_date upcoming_birthdays) tt
    (fun entry _ =>
       print (fst entry ++ "'s birthday is on "
              ++ Calendar.strftime (snd entry))).

Definition change (n new_phone_number : string) : M AddressBook unit :=
  if negb (Str.len new_phone_number =? 10)
     || negb (Str.isdigit new_phone_number)
  then print "Phone number must be 10 digits."
  else
    self <- get ;;
    if Dict.mem n (data self) then
      on_record n
        (record <- get ;;
         put (mkRecord (name record) [] (birthday record)) ;;
         add_phone new_phone_number) ;;
      print ("Phone number for contact '" ++ n ++ "' updated successfully.")
    else
      print "Contact not found.".

Definition del_contact (n : string) : M AddressBook unit :=
  self <- get ;;
  if Dict.mem n (data self) then
    put (mkAddressBook (Dict.del n (data self))) ;;
    print ("Contact '" ++ n ++ "' deleted successfully.")
  else
    print "Contact not found.".

(** Running a method on an object with an empty standard output. *)
Definition exec {S A} (m : M S A) (self : S) : outcome A * S * list string :=
  m self [].

(** ** More [str] methods: [split], [strip], [lower], [join] *)

Module Text.

(** The characters for which [str.isspace] holds, below 256: the controls
    U+0009 to U+000D and U+001C to U+001F, the space, U+0085 and U+00A0.
    [split()] and [strip()] use the same set. *)
Definition isspace (c : ascii) : bool :=
  let n := Str.ord c in
  ((9 <=? n) && (n <=? 13)) || ((28 <=? n) && (n <=? 31))
  || (n =? 32) || (n =? 133) || (n =? 160).

(** [s.split()], scanning [s] with the word [tok] in progress. *)
Fixpoint split_from (tok : string) (s : string) : list string :=
  match s with
  | EmptyString => match tok with EmptyString => [] | _ => [tok] end
  | String c s' =>
      if isspace c then
        match tok with
        | EmptyString => split_from EmptyString s'
        | _ => tok :: split_from EmptyString s'
        end
      else split_from (tok ++ String c EmptyString) s'
  end.

(** [s.split()]: the words of [s], the runs of characters that are not
    white space. *)
Definition split (s : string) : list string := split_from EmptyString s.

Fixpoint lstrip (s : string) : string :=
  match s with
  | String c s' => if isspace c then lstrip s' else s
  | EmptyString => EmptyString
  end.

Fixpoint rstrip (s : string) : string :=
  match s with
  | String c s' =>
      match rstrip s' with
      | EmptyString => if isspace c then EmptyString else String c EmptyString
      | r => String c r
      end
  | EmptyString => EmptyString
  end.

(** [s.strip()] *)
Definition strip (s : string) : string := rstrip (lstrip s).

(** The lower case of a character below 256: [A-Z] and the capital letters
    U+00C0 to U+00DE, the sign U+00D7 apart, move up by 32. *)
Definition lower_char (c : ascii) : ascii :=
  let n := Str.ord c in
  if ((65 <=? n) && (n <=? 90))
     || ((192 <=? n) && (n <=? 222) && negb (n =? 215))
  then Str.chr (n + 32) else c.

(** [s.lower()] *)
Fixpoint lower (s : string) : string :=
  match s with
  | EmptyString => EmptyString
  | String c s' => String (lower_char c) (lower s')
  end.

(** [sep.join(l)] *)
Fixpoint join (sep : string) (l : list string) : string :=
  match l with
  | [] => EmptyString
  | [x] => x
  | x :: l' => x ++ sep ++ join sep l'
  end.

(** [x in l] for a list of strings. *)
Definition mem (x : string) (l : list string) : bool :=
  existsb (String.eqb x) l.

End Text.

(** ** The other methods of [Record] *)

(** [enumerate(l)], from the index [i]. *)
Fixpoint enumerate_from {A} (i : nat) (l : list A) : list (nat * A) :=
  match l with
  | [] => []
  | x :: l' => (i, x) :: enumerate_from (S i) l'
  end.

(** [l[i] = x] for an index of the list. *)
Fixpoint set_nth {A} (i : nat) (x : A) (l : list A) : list A :=
  match l, i with
  | [], _ => []
  | _ :: l', O => x :: l'
  | y :: l', S i' => y :: set_nth i' x l'
  end.

(** [delete_phone]: the comprehension reads [phone.value] of every phone
    and keeps the phones whose value differs; [self.phones] is assigned
    when the whole list has been built. *)
Definition delete_phone (phone_number : string) : M Record_ unit :=
  self <- get ;;
  kept <- for_each (phones self) []
            (fun phone kept =>
               v <- getattr_value phone ;;
               ret (if String.eqb v phone_number then kept
                    else (kept ++ [phone])%list)) ;;
  put (mkRecord (name self) kept (birthday self)).

(** [edit_phone]: the loop visits the phones of the list in order and
    assigns [phone.value] of those whose value is the old number; the phone
    visited is the object at that index of the list. *)
Definition edit_phone (old_phone_number new_phone_number : string)
  : M Record_ unit :=
  self <- get ;;
  for_each (enumerate_from 0 (phones self)) tt
    (fun entry _ =>
       v <- getattr_value (snd entry) ;;
       if String.eqb v old_phone_number then
         r <- get ;;
         put (mkRecord (name r)
                (set_nth (fst entry) (mkField (Some new_phone_number))
                         (phones r))
                (birthday r))
       else ret tt).

(** The loop of [find_phone]: the value of the first phone that has the
    number, [None] when the loop ends without a [return]. *)
Fixpoint find_phone_loop {S} (ps : list Field) (phone_number : string)
  : M S (option string) :=
  match ps with
  | [] => ret None
  | phone :: ps' =>
      v <- getattr_value phone ;;
      if String.eqb v phone_number then ret (Some v)
      else find_phone_loop ps' phone_number
  end.

Definition find_phone {S} (self : Record_) (phone_number : string)
  : M S (option string) :=
  find_phone_loop (phones self) phone_number.

(** [[str(p) for p in ps]] *)
Definition strs {S} (ps : list Field) : M S (list string) :=
  for_each ps [] (fun p done => s <- Field__str__ p ;; ret (done ++ [s])%list).

(** [str(record)] *)
Definition Record__str__ {S} (self : Record_) : M S string :=
  ps <- strs (phones self) ;;
  let phone_numbers := Text.join "; " ps in
  birthday_str <-
    match birthday self with
    | Some b => s <- Field__str__ b ;; ret (", birthday: " ++ s)
    | None => ret ""
    end ;;
  n <- getattr_value (name self) ;;
  ret ("Contact name: " ++ n ++ ", phones: " ++ phone_numbers ++ birthday_str).

(** ** The command loop *)

(** [parse_input]: the first word, stripped and in lower case, and the other
    words; unpacking no word at all is a [ValueError]. *)
Definition parse_input {S} (user_input : string) : M S (string * list string) :=
  match Text.split user_input with
  | [] => raise ValueError
  | cmd :: args => ret (Text.lower (Text.strip cmd), args)
  end.

(** How an iteration of the loop of [main] ends: with the next iteration,
    or with [break]. *)
Inductive control : Type := Continue | Break.

(** A method run on an object held in a local variable: its value and the
    object as the method leaves it. *)
Definition call_on {S T A} (obj : T) (m : M T A) : M S (A * T) :=
  fun s o =>
    match m obj o with
    | (Return a, obj', o') => (Return (a, obj'), s, o')
    | (Raise e, _, o') => (Raise e, s, o')
    end.

Section Main.

(** The builtin [int] on a word of the line. *)
Variable int_of_str : string -> outcome Z.

(** The body of the loop [while True] of [main], for the line that [input]
    returned and the clock of that iteration.  The book is the state.  In
    the branch of [close] and [exit], [save_data(book)], which writes the
    book to the disk and leaves it as it is, stands between the [print] and
    the [break]. *)
Definition main_body (now : Calendar.datetime) (user_input : string)
  : M AddressBook control :=
  parsed <- parse_input user_input ;;
  let command := fst parsed in
  let args := snd parsed in
  if Text.mem command ["close"; "exit"] then
    print "Good bye!" ;;
    ret Break
  else if String.eqb command "hello" then
    print "How can I help you?" ;;
    ret Continue
  else if String.eqb command "add" then
    match args with
    | n :: ((_ :: _) as phone_numbers) =>
        if negb (forallb (Re.matches phone_pattern) phone_numbers) then
          print "Phone number must be 10 digits." ;;
          ret Continue
        else
          fresh <- Record__init__ n ;;
          filled <- call_on fresh
                      (for_each phone_numbers tt
                         (fun phone_number _ => add_phone phone_number)) ;;
          add_record (snd filled) ;;
          print ("Contact '" ++ n ++ "' added successfully.") ;;
          ret Continue
    | _ =>
        print "Please provide both name and phone number." ;;
        ret Continue
    end
  else if String.eqb command "change" then
    match args with
    | [n; new_phone_number] =>
        change n new_phone_number ;;
        ret Continue
    | _ =>
        print "Please provide name and the new phone number." ;;
        ret Continue
    end
  else if String.eqb command "phone" then
    match args with
    | [n] =>
        book <- get ;;
        match Dict.get n (data book) with
        | Some record =>
            ps <- strs (phones record) ;;
            print ("Phone numbers for contact '" ++ n ++ "': "
                   ++ Text.join ", " ps) ;;
            ret Continue
        | None =>
            print "Contact not found." ;;
            ret Continue
        end
    | _ =>
        print "Please provide name." ;;
        ret Continue
    end
  else if String.eqb command "all" then
    book <- get ;;
    for_each (Dict.values (data book)) tt
      (fun record _ => s <- Record__str__ record ;; print s) ;;
    ret Continue
  else if String.eqb command "add-birthday" then
    match args with
    | [n; b] =>
        add_birthday now n b ;;
        ret Continue
    | _ =>
        print "Please provide both name and birthday in the format DD.MM.YYYY." ;;
        ret Continue
    end
  else if String.eqb command "show-birthday" then
    match args with
    | [n] =>
        show_birthday n ;;
        ret Continue
    | _ =>
        print "Please provide name." ;;
        ret Continue
    end
  else if String.eqb command "birthdays" then
    match args with
    | a :: _ =>
        days <- lift (int_of_str a) ;;
        birthdays now days ;;
        ret Continue
    | [] =>
        birthdays now 7 ;;
        ret Continue
    end
  else if String.eqb command "del" then
    match args with
    | [n] =>
        del_contact n ;;
        ret Continue
    | _ =>
        print "Please provide name." ;;
        ret Continue
    end
  else
    print "Invalid command." ;;
    ret Continue.

(** The loop of [main] on the lines typed, each with the clock of its
    iteration: it goes on until a [break], an exception, or the last line
    given ([Continue]: the loop waits for the next line). *)
Fixpoint main_loop (inputs : list (Calendar.datetime * string))
  : M AddressBook control :=
  match inputs with
  | [] => ret Continue
  | (now, user_input) :: inputs' =>
      c <- main_body now user_input ;;
      match c with
      | Break => ret Break
      | Continue => main_loop inputs'
      end
  end.

End Main.

(** ** Vocabulary of the statements *)

(** [strip_decimals n s]: what remains of [s] after [n] leading characters
    of the class [\d], if it starts with that many. *)
Fixpoint strip_decimals (n : nat) (s : string) : option string :=
  match n with
  | O => Some s
  | S n' =>
      match s with
      | String c s' => if Str.is_decimal c then strip_decimals n' s' else None
      | EmptyString => None
      end
  end.

(** The string made of a line feed. *)
Definition LF : string := String Str.newline EmptyString.

(** Ten digits followed by a line feed: eleven characters. *)
Definition phone_with_newline : string := "1234567890" ++ LF.

(** Ten times SUPERSCRIPT TWO (U+00B2). *)
Definition superscript_phone : string :=
  let c := Str.chr 178 in
  String c (String c (String c (String c (String c
  (String c (String c (String c (String c (String c EmptyString))))))))).

(** The check of [AddressBook.change], as an expression. *)
Definition change_accepts (s : string) : bool :=
  negb (negb (Str.len s =? 10) || negb (Str.isdigit s)).

(** The check of [Phone.__init__], as an expression. *)
Definition Phone_accepts (s : string) : bool := Re.matches phone_pattern s.

(** The three components of a run. *)
Definition result {S A} (r : outcome A * S * list string) : outcome A :=
  fst (fst r).

Definition final_state {S A} (r : outcome A * S * list string) : S :=
  snd (fst r).

Definition output {S A} (r : outcome A * S * list string) : list string :=
  snd r.

(** A computation that leaves the object it runs on as it found it. *)
Definition read_only {S A} (m : M S A) : Prop :=
  forall s o, final_state (m s o) = s.

(** A contact with two phones and no birthday, and a book that holds it. *)
Definition ann : Record_ :=
  mkRecord (mkField (Some "Ann"))
           [mkField (Some "1111111111"); mkField (Some "2222222222")]
           None.

Definition book_ann : AddressBook := mkAddressBook [("Ann", ann)].

(** The record [Record("")] evaluates to. *)
Definition nameless : Record_ := mkRecord no_attributes [] None.

(** A reading of the clock: 3 November 2026, at noon. *)
Definition noon : Calendar.datetime := Calendar.mkdatetime 2026 11 3 12 0 0 0.

(** The same day, one second after midnight. *)
Definition just_after_midnight : Calendar.datetime :=
  Calendar.mkdatetime 2026 11 3 0 0 1 0.

Definition midnight (y m d : Z) : Calendar.datetime :=
  Calendar.mkdatetime y m d 0 0 0 0.

Definition contact (n : string) (b : string) : string * Record_ :=
  (n, mkRecord (mkField (Some n)) [] (Some (mkField (Some b)))).

(** Ann was born on a 3 November. *)
Definition book_today : AddressBook :=
  mkAddressBook [contact "Ann" "03.11.2000"].

(** Ann was born on a 3 November, Bob on a 4 November. *)
Definition book_today_tomorrow : AddressBook :=
  mkAddressBook [contact "Ann" "03.11.2000"; contact "Bob" "04.11.1990"].

(** The text [DD.MM.YYYY] of the day [d], the month [m] and the year [y]. *)
Definition render_birthday (y m d : Z) : string :=
  Calendar.zfill 2 d ++ "." ++ Calendar.zfill 2 m ++ "." ++ Calendar.zfill 4 y.

(** The date [d.m.y] is today's date, by the clock [now], or an earlier one. *)
Definition on_or_before (y m d : Z) (now : Calendar.datetime) : Prop :=
  Calendar.lex [y; m; d]
               [Calendar.year now; Calendar.month now; Calendar.day now] <> Gt.

(** What [datetime.now()] can return: a date of the calendar and a time of
    the day. *)
Definition wf_clock (now : Calendar.datetime) : Prop :=
  Calendar.check_date_fields (Calendar.year now) (Calendar.month now)
                             (Calendar.day now) = true
  /\ 0 <= Calendar.hour now < 24 /\ 0 <= Calendar.minute now < 60
  /\ 0 <= Calendar.second now < 60 /\ 0 <= Calendar.microsecond now < 1000000.

(** The occurrence [birthdays] computes for a birthday parsed as [t]: this
    year's date, or next year's when this year's is before the clock. *)
Definition occurrence (now t : Calendar.datetime) : outcome Calendar.datetime :=
  match Calendar.replace_year t (Calendar.year now) with
  | Return this_year =>
      if Calendar.lt this_year now
      then Calendar.replace_year this_year (Calendar.year now + 1)
      else Return this_year
  | Raise e => Raise e
  end.

(** The test [0 <= days_until_birthday <= days] of [birthdays]. *)
Definition in_window (now : Calendar.datetime) (days : Z)
  (birthday_date : Calendar.datetime) : bool :=
  let days_until_birthday := Calendar.days (Calendar.sub birthday_date now) in
  (0 <=? days_until_birthday) && (days_until_birthday <=? days).

(** The time of the day of a reading of the clock, in microseconds. *)
Definition microsecond_of_day (t : Calendar.datetime) : Z :=
  Calendar.second_of_day t * 1000000 + Calendar.microsecond t.

(** The record [r] is named [n] and has the birthday text [b]. *)
Definition named (n b : string) (r : Record_) : Prop :=
  value (name r) = Some n /\ birthday r = Some (mkField (Some b)).

(** The phone object that holds the text [v]. *)
Definition phone_of (v : string) : Field := mkField (Some v).

(** The record [r] with the phone list [ps]. *)
Definition with_phones (r : Record_) (ps : list Field) : Record_ :=
  mkRecord (name r) ps (birthday r).

(** The record [r] with the birthday text [b]. *)
Definition with_birthday (r : Record_) (b : string) : Record_ :=
  mkRecord (name r) (phones r) (Some (mkField (Some b))).

(** The date [d.m.y] is after today's date, by the clock [now]. *)
Definition after_today (y m d : Z) (now : Calendar.datetime) : Prop :=
  Calendar.lex [y; m; d]
               [Calendar.year now; Calendar.month now; Calendar.day now] = Gt.

(** [strptime] reads [v] as a date that is not after the clock. *)
Definition date_ok (now : Calendar.datetime) (v : string) : bool :=
  match Calendar.strptime v with
  | Return t => Calendar.le t now
  | Raise _ => false
  end.

(** The line [add_birthday] prints when it refuses: the format comes first,
    then the date, then the name. *)
Definition refusal (now : Calendar.datetime) (v : string) : string :=
  if negb (Re.matches birthday_pattern v)
  then "Invalid date format. Use DD.MM.YYYY"
  else if negb (date_ok now v)
       then "Invalid date. Please enter a valid date."
       else "Contact not found.".

(** The record [r] accounts for the entry [e] of the list of [birthdays]:
    [e] is the name of [r] with the occurrence of its birthday, and the
    occurrence is in the window. *)
Definition listed_for (now : Calendar.datetime) (days : Z) (r : Record_)
  (e : string * Calendar.datetime) : Prop :=
  exists b t,
    named (fst e) b r
    /\ Calendar.strptime b = Return t
    /\ occurrence now t = Return (snd e)
    /\ in_window now days (snd e) = true.

(** Every attribute the query reads is there. *)
Definition attributes_set (r : Record_) : Prop :=
  value (name r) <> None /\ birthday r <> Some no_attributes.

(** The line [birthdays] prints for an entry of its list. *)
Definition birthday_line (e : string * Calendar.datetime) : string :=
  fst e ++ "'s birthday is on " ++ Calendar.strftime (snd e).

(** The entry [a] may stand before the entry [b] in a list in ascending
    order of the dates. *)
Definition not_later (a b : string * Calendar.datetime) : Prop :=
  Calendar.lt (snd b) (snd a) = false.

(** The entries of [l] whose date is [d], in the order of [l]. *)
Definition on_date (d : Calendar.datetime) (l : list (string * Calendar.datetime))
  : list (string * Calendar.datetime) :=
  filter (fun e => match Calendar.cmp (snd e) d with Eq => true | _ => false end) l.

(** The text [ab.ce.y1y2y3y4]. *)
Definition birthday_shape (a b c e y1 y2 y3 y4 : ascii) : string :=
  String a (String b (String "." (String c (String e (String "."
    (String y1 (String y2 (String y3 (String y4 ""))))))))).

(** The command names of [main]. *)
Definition commands : list string :=
  ["close"; "exit"; "hello"; "add"; "change"; "phone"; "all"; "add-birthday";
   "show-birthday"; "birthdays"; "del"].

(** The commands of [main] that only read the book. *)
Definition reading_commands : list string :=
  ["close"; "exit"; "hello"; "phone"; "all"; "show-birthday"; "birthdays"].

(** No character of [s] is white space. *)
Definition no_space (s : string) : bool :=
  Str.all (fun c => negb (Text.isspace c)) s.

(** The usage line of a command for a number of arguments it does not
    take, if it is one. *)
Definition usage (command : string) (args : list string) : option string :=
  let n := length args in
  if String.eqb command "add" then
    if (n <? 2)%nat then Some "Please provide both name and phone number."
    else None
  else if String.eqb command "change" then
    if negb (n =? 2)%nat
    then Some "Please provide name and the new phone number." else None
  else if Text.mem command ["phone"; "show-birthday"; "del"] then
    if negb (n =? 1)%nat then Some "Please provide name." else None
  else if String.eqb command "add-birthday" then
    if negb (n =? 2)%nat
    then Some "Please provide both name and birthday in the format DD.MM.YYYY."
    else None
  else None.

(** An entry of the mapping as the program builds them: the key is the name
    of the record, and a birthday, if there is one, has its text. *)
Definition entry_ok (kr : string * Record_) : Prop :=
  value (name (snd kr)) = Some (fst kr)
  /\ birthday (snd kr) <> Some no_attributes.

(** A book as the program builds them: each name is a key once, and every
    entry is as above. *)
Definition book_ok (book : AddressBook) : Prop :=
  NoDup (Dict.keys (data book)) /\ Forall entry_ok (data book).

(** A stand-in for the builtin [int] in examples: it reads no word. *)
Definition no_int (s : string) : outcome Z := Raise ValueError.

(** The book without contacts, as [load_data] returns it on a first run. *)
Definition empty_book : AddressBook := mkAddressBook [].

(** The line [birthdays] prints for a contact whose birthday it cannot
    turn into an occurrence. *)
Definition error_line (n : string) : string :=
  "Error processing birthday for " ++ n ++ ". Invalid date format.".

(** The lines the loop of [birthdays] prints for the record [r]: the error
    line when the record has a name and a birthday text that [strptime]
    does not read or that has no occurrence in the year at hand, and
    nothing otherwise. *)
Definition error_report (now : Calendar.datetime) (r : Record_) : list string :=
  match value (name r), birthday r with
  | Some n, Some (mkField (Some b)) =>
      match Calendar.strptime b with
      | Return t =>
          match occurrence now t with
          | Return _ => []
          | Raise _ => [error_line n]
          end
      | Raise _ => [error_line n]
      end
  | _, _ => []
  end.

(** * Properties *)

(** ** Characters *)

Lemma ord_chr (z : Z) : 0 <= z < 256 -> Str.ord (Str.chr z) = z.
Proof.
  intros Hz. unfold Str.ord, Str.chr.
  rewrite N_ascii_embedding by lia. lia.
Qed.

Lemma ord_range (c : ascii) : 0 <= Str.ord c < 256.
Proof.
  unfold Str.ord. pose proof (N_ascii_bounded c). lia.
Qed.

Lemma ord_inj (a b : ascii) : Str.ord a = Str.ord b -> a = b.
Proof.
  unfold Str.ord. intros H.
  rewrite <- (ascii_N_embedding a), <- (ascii_N_embedding b).
  f_equal. lia.
Qed.

Lemma is_decimal_is_digit (c : ascii) :
  Str.is_decimal c = true -> Str.is_digit c = true.
Proof. unfold Str.is_digit. intros ->. reflexivity. Qed.

Lemma all_decimal_all_digit (s : string) :
  Str.all Str.is_decimal s = true -> Str.all Str.is_digit s = true.
Proof.
  induction s as [|c s IH]; simpl; [reflexivity|].
  rewrite !andb_true_iff. intros [Hc Hs].
  split; [apply is_decimal_is_digit, Hc | apply IH, Hs].
Qed.

(** ** The regular expressions *)

Lemma run_times_digit (n k : nat) (s : string) :
  Re.run (Re.Times n Re.Digit) k s =
  match strip_decimals n s with
  | Some rest => [((k + n)%nat, rest)]
  | None => []
  end.
Proof.
  revert k s. induction n as [|n IH]; intros k s.
  - simpl. rewrite Nat.add_0_r. reflexivity.
  - simpl. destruct s as [|c s]; simpl; [reflexivity|].
    destruct (Str.is_decimal c); simpl; [|reflexivity].
    specialize (IH (S k) s). simpl in IH. rewrite IH.
    rewrite app_nil_r, Nat.add_succ_r. reflexivity.
Qed.

Lemma strip_decimals_spec (n : nat) (s rest : string) :
  strip_decimals n s = Some rest <->
  exists t, s = t ++ rest /\ String.length t = n
            /\ Str.all Str.is_decimal t = true.
Proof.
  revert s. induction n as [|n IH]; intros s; simpl.
  - split.
    + intros [= ->]. exists EmptyString. repeat split.
    + intros (t & -> & Hlen & _). destruct t; [reflexivity | discriminate].
  - destruct s as [|c s].
    + split; [discriminate|].
      intros (t & Ht & Hlen & _). destruct t; discriminate.
    + destruct (Str.is_decimal c) eqn:Hc.
      * rewrite IH. split.
        -- intros (t & -> & Hlen & Hall). exists (String c t).
           simpl. rewrite Hc, Hlen, Hall. repeat split.
        -- intros (t & Ht & Hlen & Hall). destruct t as [|c' t]; [discriminate|].
           simpl in *. injection Ht as <- ->. injection Hlen as Hlen.
           rewrite Hc in Hall. exists t. repeat split; assumption.
      * split; [discriminate|].
        intros (t & Ht & Hlen & Hall). destruct t as [|c' t]; [discriminate|].
        simpl in *. injection Ht as <- ->. rewrite Hc in Hall. discriminate.
Qed.

Lemma Phone_accepts_unfold (s : string) :
  Phone_accepts s =
  match strip_decimals 10 s with
  | Some rest => Re.at_end rest
  | None => false
  end.
Proof.
  unfold Phone_accepts, Re.matches, Re.re_match, phone_pattern.
  cbn [Re.seq Re.run Nat.eqb flat_map fst snd app].
  pose proof (run_times_digit 10 0 s) as H. cbn [Re.run] in H. rewrite H.
  destruct (strip_decimals 10 s) as [rest|]; [|reflexivity].
  cbn [flat_map fst snd app]. destruct (Re.at_end rest); reflexivity.
Qed.

Lemma at_end_spec (s : string) :
  Re.at_end s = true <-> s = EmptyString \/ s = LF.
Proof.
  unfold Re.at_end, LF. destruct s as [|c [|c' s]].
  - split; [left|]; reflexivity.
  - split.
    + intros H. right. apply Ascii.eqb_eq in H. subst. reflexivity.
    + intros [H|H]; [discriminate|]. injection H as ->.
      apply Ascii.eqb_refl.
  - split; [discriminate|]. intros [H|H]; discriminate.
Qed.

Lemma length_append (s t : string) :
  String.length (s ++ t) = (String.length s + String.length t)%nat.
Proof. induction s; simpl; congruence. Qed.

Lemma append_empty_r (s : string) : s ++ "" = s.
Proof. induction s; simpl; congruence. Qed.

(** What [Phone.__init__] accepts: ten characters of [\d], or ten such
    characters and a final line feed. *)
Lemma Phone_accepts_spec (s : string) :
  Phone_accepts s = true <->
  (String.length s = 10%nat /\ Str.all Str.is_decimal s = true)
  \/ (exists t, s = t ++ LF /\ String.length t = 10%nat
                /\ Str.all Str.is_decimal t = true).
Proof.
  rewrite Phone_accepts_unfold. split.
  - destruct (strip_decimals 10 s) as [rest|] eqn:E; [|discriminate].
    apply strip_decimals_spec in E. destruct E as (t & -> & Hlen & Hall).
    intros H. apply at_end_spec in H. destruct H as [-> | ->].
    + left. rewrite append_empty_r. split; assumption.
    + right. exists t. repeat split; assumption.
  - intros [[Hlen Hall] | (t & -> & Hlen & Hall)].
    + assert (E : strip_decimals 10 s = Some EmptyString).
      { apply strip_decimals_spec. exists s.
        rewrite append_empty_r. repeat split; assumption. }
      rewrite E. reflexivity.
    + assert (E : strip_decimals 10 (t ++ LF) = Some LF).
      { apply strip_decimals_spec. exists t. repeat split; assumption. }
      rewrite E. reflexivity.
Qed.

(** The check of [change]: ten characters, all of them digits in the sense
    of [str.isdigit]. *)
Lemma change_accepts_spec (s : string) :
  change_accepts s = true <->
  String.length s = 10%nat /\ Str.all Str.is_digit s = true.
Proof.
  unfold change_accepts, Str.len, Str.isdigit.
  rewrite negb_true_iff, orb_false_iff, !negb_false_iff, Z.eqb_eq.
  split.
  - intros [Hlen H]. split; [lia|]. destruct s; [discriminate | exact H].
  - intros [Hlen H]. split; [lia|]. destruct s; [discriminate | exact H].
Qed.

(** On strings without a final line feed the two checks of the program
    agree with the ten-decimal-digits reading. *)
Lemma Phone_accepts_ten_decimals (s : string) :
  String.length s = 10%nat ->
  Phone_accepts s = Str.all Str.is_decimal s.
Proof.
  intros Hlen. destruct (Str.all Str.is_decimal s) eqn:Hall.
  - apply Phone_accepts_spec. left. split; assumption.
  - destruct (Phone_accepts s) eqn:H; [|reflexivity].
    apply Phone_accepts_spec in H.
    destruct H as [[_ H] | (t & -> & Ht & _)]; [congruence|].
    rewrite length_append, Ht in Hlen. simpl in Hlen. lia.
Qed.

(** ** Running the constructors *)

Lemma Name_empty {S} (st : S) (out : list string) :
  Name "" st out = (Return no_attributes, st, (out ++ ["Name cannot be empty."])%list).
Proof. reflexivity. Qed.

Lemma Name_nonempty {S} (n : string) (st : S) (out : list string) :
  n <> "" -> Name n st out = (Return (mkField (Some n)), st, out).
Proof.
  intros Hn. destruct n as [|c n]; [congruence|]. reflexivity.
Qed.

Lemma Phone_rejected {S} (v : string) (st : S) (out : list string) :
  Phone_accepts v = false ->
  Phone v st out =
  (Return no_attributes, st, (out ++ ["Phone number must be 10 digits."])%list).
Proof.
  unfold Phone_accepts. intros H.
  unfold Phone, new, Phone__init__, input_error, try_except.
  rewrite H. reflexivity.
Qed.

Lemma Phone_accepted {S} (v : string) (st : S) (out : list string) :
  Phone_accepts v = true ->
  Phone v st out = (Return (mkField (Some v)), st, out).
Proof.
  unfold Phone_accepts. intros H.
  unfold Phone, new, Phone__init__, input_error, try_except.
  rewrite H. reflexivity.
Qed.

(** ** [Record.add_phone] *)

Lemma add_phone_accepted (r : Record_) (v : string) (out : list string) :
  Phone_accepts v = true ->
  add_phone v r out =
  (Return tt,
   mkRecord (name r) (phones r ++ [mkField (Some v)]) (birthday r),
   out).
Proof.
  intros H. unfold add_phone, input_error, try_except, bind.
  rewrite (Phone_accepted v r out H). reflexivity.
Qed.

(** The [ValueError] never reaches [add_phone]: [Phone.__init__] has caught
    it, and the object without [value] is appended. *)
Lemma add_phone_rejected (r : Record_) (v : string) (out : list string) :
  Phone_accepts v = false ->
  add_phone v r out =
  (Return tt,
   mkRecord (name r) (phones r ++ [no_attributes]) (birthday r),
   (out ++ ["Phone number must be 10 digits."])%list).
Proof.
  intros H. unfold add_phone, input_error, try_except, bind.
  rewrite (Phone_rejected v r out H). reflexivity.
Qed.

(** ** The mapping *)

Section DictFacts.
Context {V : Type}.
Implicit Types (d : list (string * V)) (k : string) (v : V).

Lemma mem_get k d : Dict.mem k d = true <-> exists v, Dict.get k d = Some v.
Proof.
  unfold Dict.mem. destruct (Dict.get k d) as [v|]; split.
  - intros _. exists v. reflexivity.
  - reflexivity.
  - discriminate.
  - intros [v H]. discriminate.
Qed.

Lemma get_set_same k v d : Dict.get k (Dict.set k v d) = Some v.
Proof.
  induction d as [|[k' v'] d IH]; simpl.
  - rewrite String.eqb_refl. reflexivity.
  - destruct (String.eqb k' k) eqn:E; simpl.
    + rewrite String.eqb_refl. reflexivity.
    + rewrite E. exact IH.
Qed.

Lemma get_set_other k k' v d :
  k' <> k -> Dict.get k' (Dict.set k v d) = Dict.get k' d.
Proof.
  intros Hk. induction d as [|[k0 v0] d IH]; simpl.
  - destruct (String.eqb_spec k k'); [congruence | reflexivity].
  - destruct (String.eqb_spec k0 k) as [->|Hne]; simpl.
    + destruct (String.eqb_spec k k'); [congruence | reflexivity].
    + destruct (String.eqb k0 k'); [reflexivity | exact IH].
Qed.

(** An assignment to a key of the mapping changes neither the keys nor
    their order. *)
Lemma keys_set_present k v d :
  Dict.mem k d = true -> Dict.keys (Dict.set k v d) = Dict.keys d.
Proof.
  unfold Dict.mem. induction d as [|[k0 v0] d IH]; simpl; [discriminate|].
  destruct (String.eqb_spec k0 k) as [->|Hne]; simpl; [reflexivity|].
  intros H. rewrite (IH H). reflexivity.
Qed.

Lemma set_get_same k v d : Dict.get k d = Some v -> Dict.set k v d = d.
Proof.
  induction d as [|[k0 v0] d IH]; simpl; [discriminate|].
  destruct (String.eqb_spec k0 k) as [->|Hne].
  - intros [= ->]. reflexivity.
  - intros H. rewrite (IH H). reflexivity.
Qed.

Lemma del_absent k d : Dict.mem k d = false -> Dict.del k d = d.
Proof.
  unfold Dict.mem. induction d as [|[k0 v0] d IH]; simpl; [reflexivity|].
  destruct (String.eqb k0 k); [discriminate|].
  intros H. rewrite (IH H). reflexivity.
Qed.

Lemma length_del_present k d :
  Dict.mem k d = true -> S (length (Dict.del k d)) = length d.
Proof.
  unfold Dict.mem. induction d as [|[k0 v0] d IH]; simpl; [discriminate|].
  destruct (String.eqb k0 k); [reflexivity|].
  intros H. simpl. rewrite (IH H). reflexivity.
Qed.

(** In a mapping (each key once) the deleted key is gone. *)
Lemma mem_del k d : NoDup (Dict.keys d) -> Dict.mem k (Dict.del k d) = false.
Proof.
  unfold Dict.mem. induction d as [|[k0 v0] d IH]; simpl; [reflexivity|].
  intros Hnd. inversion Hnd as [|? ? Hnotin Hnd']; subst.
  destruct (String.eqb_spec k0 k) as [->|Hne].
  - clear IH Hnd Hnd'. induction d as [|[k1 v1] d IH]; simpl; [reflexivity|].
    simpl in Hnotin.
    destruct (String.eqb_spec k1 k) as [->|Hne]; [tauto|].
    apply IH. tauto.
  - simpl. destruct (String.eqb_spec k0 k); [congruence|]. apply IH, Hnd'.
Qed.

End DictFacts.

(** ** [AddressBook.change] *)

Lemma change_rejected (n v : string) (book : AddressBook) (out : list string) :
  change_accepts v = false ->
  change n v book out =
  (Return tt, book, (out ++ ["Phone number must be 10 digits."])%list).
Proof.
  unfold change_accepts, change. intros H.
  apply negb_false_iff in H. rewrite H. reflexivity.
Qed.

Lemma change_not_found (n v : string) (book : AddressBook) (out : list string) :
  change_accepts v = true ->
  Dict.mem n (data book) = false ->
  change n v book out = (Return tt, book, (out ++ ["Contact not found."])%list).
Proof.
  unfold change_accepts, change. intros H Hn.
  apply negb_true_iff in H. rewrite H.
  unfold bind, get. rewrite Hn. reflexivity.
Qed.

(** Ten decimal digits for a contact of the book: its phones become the one
    new number, and nothing else of the book changes. *)
Lemma change_replaces (n v : string) (book : AddressBook) (r : Record_)
  (out : list string) :
  String.length v = 10%nat ->
  Str.all Str.is_decimal v = true ->
  Dict.get n (data book) = Some r ->
  change n v book out =
  (Return tt,
   mkAddressBook
     (Dict.set n (mkRecord (name r) [mkField (Some v)] (birthday r))
               (data book)),
   (out ++ [("Phone number for contact '" ++ n
             ++ "' updated successfully.")%string])%list).
Proof.
  intros Hlen Hall Hget.
  assert (Hc : change_accepts v = true).
  { apply change_accepts_spec. split; [assumption|].
    apply all_decimal_all_digit, Hall. }
  assert (Hp : Phone_accepts v = true).
  { rewrite Phone_accepts_ten_decimals; assumption. }
  unfold change_accepts in Hc. apply negb_true_iff in Hc.
  unfold change. rewrite Hc.
  assert (Hmem : Dict.mem n (data book) = true).
  { apply mem_get. exists r. exact Hget. }
  unfold bind at 1. unfold get at 1. rewrite Hmem.
  unfold bind at 1. unfold on_record. rewrite Hget.
  unfold bind at 1. unfold get at 1. unfold bind at 1. unfold put at 1.
  rewrite (add_phone_accepted _ v out Hp). reflexivity.
Qed.

(** ** Read-only computations *)

Section ReadOnly.
Context {S : Type}.

Lemma read_only_ret {A} (a : A) : read_only (@ret S A a).
Proof. intros s o. reflexivity. Qed.

Lemma read_only_raise {A} (e : exn) : read_only (@raise S A e).
Proof. intros s o. reflexivity. Qed.

Lemma read_only_lift {A} (r : outcome A) : read_only (@lift S A r).
Proof. intros s o. reflexivity. Qed.

Lemma read_only_get : read_only (@get S).
Proof. intros s o. reflexivity. Qed.

Lemma read_only_print (line : string) : read_only (@print S line).
Proof. intros s o. reflexivity. Qed.

Lemma read_only_bind {A B} (c : M S A) (k : A -> M S B) :
  read_only c -> (forall a, read_only (k a)) -> read_only (bind c k).
Proof.
  intros Hc Hk s o. unfold bind. specialize (Hc s o).
  destruct (c s o) as [[[a|e] s'] o']; unfold final_state in *; simpl in *.
  - subst s'. apply Hk.
  - exact Hc.
Qed.

Lemma read_only_try_except {A} (c : M S A) (es : list exn) (h : M S A) :
  read_only c -> read_only h -> read_only (try_except c (except es h)).
Proof.
  intros Hc Hh s o. unfold try_except, except. specialize (Hc s o).
  destruct (c s o) as [[[a|e] s'] o']; unfold final_state in *; simpl in *.
  - exact Hc.
  - subst s'. destruct (existsb (exn_eqb e) es); [apply Hh | reflexivity].
Qed.

Lemma read_only_for_each {X A} (xs : list X) (body : X -> A -> M S A) :
  (forall x acc, read_only (body x acc)) ->
  forall acc, read_only (for_each xs acc body).
Proof.
  intros Hbody. induction xs as [|x xs IH]; intros acc; simpl.
  - apply read_only_ret.
  - apply read_only_bind; [apply Hbody | intros acc'; apply IH].
Qed.

Lemma read_only_getattr_value (f : Field) : read_only (@getattr_value S f).
Proof.
  unfold getattr_value. destruct (value f);
    [apply read_only_ret | apply read_only_raise].
Qed.

Lemma read_only_if {A} (b : bool) (c1 c2 : M S A) :
  read_only c1 -> read_only c2 -> read_only (if b then c1 else c2).
Proof. destruct b; intros H1 H2; assumption. Qed.

End ReadOnly.

Create HintDb frame.

#[local] Hint Resolve read_only_ret read_only_raise read_only_lift
  read_only_get read_only_print read_only_getattr_value : frame.

Ltac frame :=
  repeat first
    [ apply read_only_bind; [|intros ?]
    | apply read_only_try_except
    | apply read_only_if
    | solve [auto with frame] ].

Lemma read_only_birthdays_step {S} (now : Calendar.datetime) (days : Z)
  (record : Record_) (upcoming : list (string * Calendar.datetime)) :
  read_only (@birthdays_step S now days record upcoming).
Proof.
  unfold birthdays_step. destruct (birthday record) as [bd|]; frame.
Qed.

Lemma read_only_birthdays_loop (now : Calendar.datetime) (days : Z) :
  read_only (birthdays_loop now days).
Proof.
  unfold birthdays_loop. apply read_only_bind; [apply read_only_get|].
  intros self. apply read_only_for_each. intros x acc.
  apply read_only_birthdays_step.
Qed.

(** ** Phone numbers: C1, C4, C6 *)

(** The check of [Phone.__init__] is not the test "ten characters, all of
    them decimal digits". *)
Lemma Phone_accepts_not_ten_decimals :
  ~ (forall s : string,
        Phone_accepts s = true <->
        String.length s = 10%nat /\ Str.all Str.is_decimal s = true).
Proof.
  intros H. destruct (proj1 (H phone_with_newline) eq_refl) as [Hlen _].
  discriminate.
Qed.

(** C1.  The claim: the check of the [Phone] constructor holds exactly for
    the strings of ten characters that are all decimal digits.  The program
    at a string of eleven characters, ten digits and a final line feed: the
    pattern [^\d{10}$] matches, the constructor keeps the string as the
    phone's value and prints nothing; the check of [change], the other phone
    check of the program, turns the same string down. *)
Theorem Phone_takes_eleven_characters :
  String.length phone_with_newline = 11%nat
  /\ Phone_accepts phone_with_newline = true
  /\ exec (Phone phone_with_newline) tt
     = (Return (mkField (Some phone_with_newline)), tt, [])
  /\ change_accepts phone_with_newline = false.
Proof. repeat split. Qed.

(** C4.  The claim: [add_phone] with a string that is not a valid phone
    reports the failure and leaves the record as it was.  The program on
    the record [ann] and the string [12345]: the message is printed, and
    the phone list has a third element, a phone without [value]. *)
Theorem add_phone_invalid_changes_record :
  Phone_accepts "12345" = false
  /\ exec (add_phone "12345") ann
     = (Return tt,
        mkRecord (mkField (Some "Ann"))
                 [mkField (Some "1111111111"); mkField (Some "2222222222");
                  no_attributes]
                 None,
        ["Phone number must be 10 digits."])
  /\ final_state (exec (add_phone "12345") ann) <> ann.
Proof.
  split; [reflexivity|]. split; [reflexivity|]. discriminate.
Qed.

(** C6.  The claim: [change] fails, and leaves the store unchanged, when the
    new phone is not exactly ten decimal digits.  The program on a book
    with Ann and ten superscript twos, which [str.isdigit] takes for digits
    and [\d] does not: the guard of [change] lets the string through, Ann's
    two phones are dropped, a phone without [value] takes their place, and
    both the error message and the success message are printed. *)
Theorem change_superscripts_changes_store :
  Str.isdecimal superscript_phone = false
  /\ exec (change "Ann" superscript_phone) book_ann
     = (Return tt,
        mkAddressBook
          [("Ann", mkRecord (mkField (Some "Ann")) [no_attributes] None)],
        ["Phone number must be 10 digits.";
         "Phone number for contact 'Ann' updated successfully."])
  /\ final_state (exec (change "Ann" superscript_phone) book_ann) <> book_ann.
Proof.
  split; [reflexivity|]. split; [reflexivity|]. discriminate.
Qed.

(** ** Creating a record: C5 *)

(** [Record("")] prints that the name cannot be empty and evaluates to a
    record without a name value, which [add_record] refuses with an
    [AttributeError], leaving the book as it was; [Record(n)] for a
    non-empty [n] prints nothing and gives the record named [n] with no
    phone and no birthday. *)
Lemma Record_init_spec :
  (forall (S : Type) (st : S) (out : list string),
      Record__init__ "" st out
      = (Return nameless, st, (out ++ ["Name cannot be empty."])%list))
  /\ value (name nameless) = None
  /\ (forall (book : AddressBook) (out : list string),
         add_record nameless book out = (Raise AttributeError, book, out))
  /\ (forall (S : Type) (st : S) (out : list string) (n : string),
         n <> "" ->
         Record__init__ n st out
         = (Return (mkRecord (mkField (Some n)) [] None), st, out)).
Proof.
  split; [reflexivity|]. split; [reflexivity|]. split; [reflexivity|].
  intros S st out n Hn. unfold Record__init__, bind.
  rewrite (Name_nonempty n st out Hn). reflexivity.
Qed.

Lemma Record_init_spec_witness :
  "Ann" <> ""
  /\ Record__init__ "Ann" tt []
     = (Return (mkRecord (mkField (Some "Ann")) [] None), tt, []).
Proof.
  split.
  - discriminate.
  - apply (proj2 (proj2 (proj2 Record_init_spec)) unit tt [] "Ann").
    discriminate.
Defined.

(** C5.  The claim: creating a record with an empty name fails, and no
    usable contact is produced.  The program at the empty name: the
    [ValueError] of [Name.__init__] is caught inside the constructor, the
    line is printed, and [Record("")] evaluates to a record; that record
    takes a phone with [add_phone] and answers [find_phone] for it. *)
Theorem Record_empty_name_is_created :
  exec (Record__init__ "") tt
  = (Return nameless, tt, ["Name cannot be empty."])
  /\ exec (add_phone "0123456789") nameless
     = (Return tt, mkRecord no_attributes [phone_of "0123456789"] None, [])
  /\ exec (find_phone (mkRecord no_attributes [phone_of "0123456789"] None)
                      "0123456789") tt
     = (Return (Some "0123456789"), tt, []).
Proof. repeat split. Qed.

(** ** Deleting a contact: C9 *)

(** C9.  [delete_record] and [del_contact] do the same to every book, and
    report the same case: the contact is deleted when its name is a key,
    and the book is left as it was when it is not. *)
Theorem delete_record_del_contact (n : string) (book : AddressBook)
  (out : list string) :
  delete_record n book out = del_contact n book out
  /\ del_contact n book out
     = if Dict.mem n (data book)
       then (Return tt, mkAddressBook (Dict.del n (data book)),
             (out ++ [("Contact '" ++ n ++ "' deleted successfully.")%string])%list)
       else (Return tt, book, (out ++ ["Contact not found."])%list).
Proof.
  split; [reflexivity|].
  unfold del_contact, bind, get.
  destruct (Dict.mem n (data book)); reflexivity.
Qed.

(** ** The birthdays query leaves the book alone: C10 *)

(** C10.  Whatever the clock, the window and the book, and whether the
    query ends normally or with an exception, the book after [birthdays]
    is the book before it: the same keys in the same order, each with the
    same name, phones and birthday. *)
Theorem birthdays_read_only (now : Calendar.datetime) (days : Z)
  (book : AddressBook) (out : list string) :
  final_state (birthdays now days book out) = book.
Proof.
  revert book out. change (read_only (birthdays now days)).
  unfold birthdays. apply read_only_bind.
  - apply read_only_birthdays_loop.
  - intros upcoming. apply read_only_for_each. intros entry [].
    apply read_only_print.
Qed.

(** ** The validators: C8 *)

Lemma strptime_raises_ValueError (v : string) (e : exn) :
  Calendar.strptime v = Raise e -> e = ValueError.
Proof.
  unfold Calendar.strptime.
  destruct (Calendar.format_regex v) as [|[[[d m] Y] fin] l].
  - intros [= <-]. reflexivity.
  - destruct (snd fin).
    + destruct (Calendar.check_date_fields _ _ _); [discriminate|].
      intros [= <-]. reflexivity.
    + intros [= <-]. reflexivity.
Qed.

Lemma is_valid_date_parsed {S} (now t : Calendar.datetime) (v : string)
  (st : S) (out : list string) :
  Calendar.strptime v = Return t ->
  is_valid_date now v st out = (Return (Calendar.le t now), st, out).
Proof.
  intros H. unfold is_valid_date, try_except, bind, lift. rewrite H.
  reflexivity.
Qed.

Lemma is_valid_date_unparsed {S} (now : Calendar.datetime) (v : string)
  (e : exn) (st : S) (out : list string) :
  Calendar.strptime v = Raise e ->
  is_valid_date now v st out = (Return false, st, out).
Proof.
  intros H. pose proof (strptime_raises_ValueError v e H) as ->.
  unfold is_valid_date, try_except, bind, lift. rewrite H. reflexivity.
Qed.

(** C8.  The three validators end for every string with a boolean, raise
    nothing, print nothing and change no object: the phone check and the
    format check are the booleans of a pattern match (and no exception
    leaves the [Phone] constructor that runs the former); the range check,
    for every reading of the clock, is [False] when [strptime] raises, as it
    does on [31.02.2020], and the comparison with the clock otherwise. *)
Theorem validators_total :
  (forall (S : Type) (now : Calendar.datetime) (v : string) (st : S)
          (out : list string),
      exists b : bool, is_valid_date now v st out = (Return b, st, out))
  /\ (forall (S : Type) (now : Calendar.datetime) (v : string) (e : exn)
             (st : S) (out : list string),
         Calendar.strptime v = Raise e ->
         is_valid_date now v st out = (Return false, st, out))
  /\ (forall (S : Type) (now : Calendar.datetime) (st : S)
             (out : list string),
         is_valid_date now "31.02.2020" st out = (Return false, st, out))
  /\ (forall (S : Type) (v : string) (st : S) (out : list string),
         exists b : bool, is_valid_format v st out = (Return b, st, out))
  /\ (forall (S : Type) (v : string) (st : S) (out : list string),
         exists (obj : Field) (out' : list string),
           Phone v st out = (Return obj, st, out')
           /\ value obj = (if Phone_accepts v then Some v else None)).
Proof.
  split; [|split; [|split; [|split]]].
  - intros S now v st out.
    destruct (Calendar.strptime v) as [t|e] eqn:H.
    + exists (Calendar.le t now). apply is_valid_date_parsed, H.
    + exists false. apply (is_valid_date_unparsed now v e), H.
  - intros S now v e st out H. apply (is_valid_date_unparsed now v e), H.
  - intros S now st out.
    apply (is_valid_date_unparsed now _ ValueError). reflexivity.
  - intros S v st out. eexists. reflexivity.
  - intros S v st out. destruct (Phone_accepts v) eqn:H.
    + rewrite (Phone_accepted v st out H). eauto.
    + rewrite (Phone_rejected v st out H). eauto.
Qed.

Lemma validators_total_witness :
  Calendar.strptime "30.02.2021" = Raise ValueError
  /\ is_valid_date noon "30.02.2021" tt [] = (Return false, tt, []).
Proof.
  split.
  - reflexivity.
  - apply (proj1 (proj2 validators_total) unit noon "30.02.2021" ValueError).
    reflexivity.
Defined.

(** ** Birthday texts: C7 *)

Lemma ord_digit n : Str.ord (Calendar.digit n) = 48 + n mod 10.
Proof.
  unfold Calendar.digit. apply ord_chr.
  pose proof (Z.mod_pos_bound n 10). lia.
Qed.

Lemma is_decimal_digit n : Str.is_decimal (Calendar.digit n) = true.
Proof.
  unfold Str.is_decimal. rewrite ord_digit.
  pose proof (Z.mod_pos_bound n 10). 
  apply andb_true_iff. split; apply Z.leb_le; lia.
Qed.

Lemma decimal_not_blank c : Str.is_decimal c = true -> Ascii.eqb c " " = false.
Proof.
  intros H. destruct (Ascii.eqb_spec c " ") as [->|]; [discriminate | reflexivity].
Qed.

Lemma int_four (c1 c2 c3 c4 : ascii) :
  Str.is_decimal c1 = true -> Str.is_decimal c2 = true ->
  Str.is_decimal c3 = true -> Str.is_decimal c4 = true ->
  Calendar.int (String c1 (String c2 (String c3 (String c4 "")))) =
  1000 * (Str.ord c1 - 48) + 100 * (Str.ord c2 - 48) + 10 * (Str.ord c3 - 48) + (Str.ord c4 - 48).
Proof.
  intros H1 H2 H3 H4. unfold Calendar.int. cbn [Calendar.int_digits].
  rewrite !decimal_not_blank by assumption. lia.
Qed.

Lemma strptime_chars (c1 c2 c3 c4 : ascii) (m d : Z) :
  Str.is_decimal c1 = true -> Str.is_decimal c2 = true ->
  Str.is_decimal c3 = true -> Str.is_decimal c4 = true ->
  In d [1;2;3;4;5;6;7;8;9;10;11;12;13;14;15;16;17;18;19;20;21;22;23;24;25;26;27;28;29;30;31] ->
  In m [1;2;3;4;5;6;7;8;9;10;11;12] ->
  let Y := String c1 (String c2 (String c3 (String c4 ""))) in
  Calendar.strptime (Calendar.zfill 2 d ++ "." ++ Calendar.zfill 2 m ++ "." ++ Y) =
  if Calendar.check_date_fields (Calendar.int Y) m d
  then Return (Calendar.mkdatetime (Calendar.int Y) m d 0 0 0 0)
  else Raise ValueError.
Proof.
  intros H1 H2 H3 H4 Hd Hm Y. subst Y.
  (repeat (destruct Hd as [<-|Hd]); try contradiction;
  repeat (destruct Hm as [<-|Hm]); try contradiction;
  unfold Calendar.strptime, Calendar.format_regex;
  cbn -[Calendar.int Calendar.check_date_fields];
  rewrite H1; cbn -[Calendar.int Calendar.check_date_fields];
  rewrite H2; cbn -[Calendar.int Calendar.check_date_fields];
  rewrite H3; cbn -[Calendar.int Calendar.check_date_fields];
  rewrite H4; cbn -[Calendar.int Calendar.check_date_fields]).
  all: try reflexivity.
Qed.

Lemma check_date_fields_bounds y m d :
  Calendar.check_date_fields y m d = true ->
  1 <= y <= 9999 /\ 1 <= m <= 12 /\ 1 <= d <= Calendar.days_in_month y m.
Proof.
  unfold Calendar.check_date_fields, Calendar.MINYEAR, Calendar.MAXYEAR.
  rewrite !andb_true_iff, !Z.leb_le. lia.
Qed.

Lemma days_in_month_le_31 y m : Calendar.days_in_month y m <= 31.
Proof.
  unfold Calendar.days_in_month.
  destruct ((m =? 2) && Calendar.is_leap y); [lia|].
  remember (Z.to_nat (m - 1)) as i.
  do 12 (destruct i as [|i]; [simpl; lia|]).
  simpl. destruct i; lia.
Qed.

Lemma in_range_list (lo : Z) (n : nat) (x : Z) :
  lo <= x < lo + Z.of_nat n -> In x (map (fun i => lo + Z.of_nat i) (seq 0 n)).
Proof.
  intros H. apply in_map_iff. exists (Z.to_nat (x - lo)). split; [lia|].
  apply in_seq. lia.
Qed.

Lemma int_zfill4 y : 0 <= y <= 9999 -> Calendar.int (Calendar.zfill 4 y) = y.
Proof.
  intros Hy. cbn [Calendar.zfill String.append].
  rewrite int_four by apply is_decimal_digit.
  rewrite !ord_digit.
  assert (y / 10 / 10 / 10 / 10 = 0) by (rewrite !Z.div_div by lia; apply Z.div_small; lia).
  pose proof (Z.div_mod y 10 ltac:(lia)).
  pose proof (Z.div_mod (y / 10) 10 ltac:(lia)).
  pose proof (Z.div_mod (y / 10 / 10) 10 ltac:(lia)).
  pose proof (Z.div_mod (y / 10 / 10 / 10) 10 ltac:(lia)).
  lia.
Qed.

Lemma strptime_render y m d :
  Calendar.check_date_fields y m d = true ->
  Calendar.strptime (render_birthday y m d) = Return (Calendar.mkdatetime y m d 0 0 0 0).
Proof.
  intros Hok. pose proof (check_date_fields_bounds y m d Hok) as (Hy & Hm & Hd).
  pose proof (days_in_month_le_31 y m).
  unfold render_birthday.
  assert (HY : Calendar.zfill 4 y =
    String (Calendar.digit (y / 10 / 10 / 10)) (String (Calendar.digit (y / 10 / 10))
      (String (Calendar.digit (y / 10)) (String (Calendar.digit y) ""))))
    by reflexivity.
  rewrite HY.
  rewrite strptime_chars; try apply is_decimal_digit.
  - rewrite <- HY, int_zfill4 by lia. rewrite Hok. reflexivity.
  - apply (in_range_list 1 31). lia.
  - apply (in_range_list 1 12). lia.
Qed.

Lemma birthday_pattern_chars (a b c e y1 y2 y3 y4 : ascii) :
  Str.is_decimal a = true -> Str.is_decimal b = true ->
  Str.is_decimal c = true -> Str.is_decimal e = true ->
  Str.is_decimal y1 = true -> Str.is_decimal y2 = true ->
  Str.is_decimal y3 = true -> Str.is_decimal y4 = true ->
  Re.matches birthday_pattern
    (String a (String b (String "." (String c (String e (String "."
      (String y1 (String y2 (String y3 (String y4 "")))))))))) = true.
Proof.
  intros Ha Hb Hc He H1 H2 H3 H4.
  unfold Re.matches, Re.re_match, birthday_pattern. cbn.
  rewrite Ha. cbn. rewrite Hb. cbn. rewrite Hc. cbn. rewrite He. cbn.
  rewrite H1. cbn. rewrite H2. cbn. rewrite H3. cbn. rewrite H4. reflexivity.
Qed.

Lemma birthday_pattern_render y m d :
  Re.matches birthday_pattern (render_birthday y m d) = true.
Proof.
  apply birthday_pattern_chars; apply is_decimal_digit.
Qed.

Lemma le_midnight y m d now :
  wf_clock now -> on_or_before y m d now ->
  Calendar.le (Calendar.mkdatetime y m d 0 0 0 0) now = true.
Proof.
  intros (_ & Hh & Hmi & Hs & Hus) Hle.
  unfold on_or_before in Hle. unfold Calendar.le, Calendar.cmp, Calendar.fields.
  destruct now as [Y M D h mi s us]. cbn [Calendar.year Calendar.month Calendar.day
    Calendar.hour Calendar.minute Calendar.second Calendar.microsecond] in *.
  cbn [Calendar.lex] in *.
  destruct (y ?= Y); [|reflexivity|congruence].
  destruct (m ?= M); [|reflexivity|congruence].
  destruct (d ?= D); [|reflexivity|congruence].
  destruct (Z.compare_spec 0 h); [|reflexivity|lia].
  destruct (Z.compare_spec 0 mi); [|reflexivity|lia].
  destruct (Z.compare_spec 0 s); [|reflexivity|lia].
  destruct (Z.compare_spec 0 us); [reflexivity|reflexivity|lia].
Qed.

(** [add_birthday] with a text both validators accept, for a contact of the
    book, then [show_birthday]: the text is stored and printed back. *)
Lemma add_birthday_then_show (now t : Calendar.datetime) (book : AddressBook)
  (r : Record_) (n v : string) (out : list string) :
  Re.matches birthday_pattern v = true ->
  Calendar.strptime v = Return t ->
  Calendar.le t now = true ->
  Dict.get n (data book) = Some r ->
  (add_birthday now n v ;; show_birthday n) book out
  = (Return tt,
     mkAddressBook
       (Dict.set n (mkRecord (name r) (phones r) (Some (mkField (Some v))))
                 (data book)),
     (out ++ [("Birthday added for contact '" ++ n ++ "'.")%string;
              (n ++ "'s birthday is on " ++ v)%string])%list).
Proof.
  intros Hformat Hparse Hle Hget.
  assert (Hmem : Dict.mem n (data book) = true).
  { apply mem_get. exists r. exact Hget. }
  unfold add_birthday, show_birthday.
  unfold bind at 1. unfold bind at 1. unfold is_valid_format at 1.
  unfold ret at 1. rewrite Hformat. cbn [negb].
  unfold bind at 1.
  rewrite (is_valid_date_parsed now t v book out Hparse), Hle. cbn [negb].
  unfold bind at 1. unfold get at 1. rewrite Hmem.
  unfold bind at 1. unfold Birthday, new, Field__init__, put at 1.
  unfold bind at 1. unfold on_record. rewrite Hget.
  unfold bind at 1. unfold get at 1. unfold put at 1.
  unfold print at 1.
  unfold bind at 1. unfold get at 1. cbn [data].
  rewrite get_set_same.
  unfold bind, Field__str__, getattr_value, ret, print. cbn [value].
  rewrite <- app_assoc. reflexivity.
Qed.

(** C7.  For a contact of the book and the text [DD.MM.YYYY] of a date of
    the calendar that is today's date or an earlier one, [add_birthday]
    stores the text as the contact's birthday and [show_birthday] then
    prints that same text. *)
Theorem birthday_round_trip (now : Calendar.datetime) (book : AddressBook)
  (r : Record_) (n : string) (y m d : Z) (out : list string) :
  wf_clock now ->
  Dict.get n (data book) = Some r ->
  Calendar.check_date_fields y m d = true ->
  on_or_before y m d now ->
  (add_birthday now n (render_birthday y m d) ;; show_birthday n) book out
  = (Return tt,
     mkAddressBook
       (Dict.set n
          (mkRecord (name r) (phones r)
                    (Some (mkField (Some (render_birthday y m d)))))
          (data book)),
     (out ++ [("Birthday added for contact '" ++ n ++ "'.")%string;
              (n ++ "'s birthday is on " ++ render_birthday y m d)%string])%list).
Proof.
  intros Hclock Hget Hdate Hle.
  apply (add_birthday_then_show now (Calendar.mkdatetime y m d 0 0 0 0)).
  - apply birthday_pattern_render.
  - apply strptime_render, Hdate.
  - apply le_midnight; assumption.
  - exact Hget.
Qed.

Lemma birthday_round_trip_witness :
  wf_clock noon
  /\ Dict.get "Ann" (data book_ann) = Some ann
  /\ Calendar.check_date_fields 2024 2 29 = true
  /\ on_or_before 2024 2 29 noon
  /\ (add_birthday noon "Ann" "29.02.2024" ;; show_birthday "Ann") book_ann []
     = (Return tt,
        mkAddressBook
          [("Ann", mkRecord (name ann) (phones ann)
                            (Some (mkField (Some "29.02.2024"))))],
        ["Birthday added for contact 'Ann'.";
         "Ann's birthday is on 29.02.2024"]).
Proof.
  assert (Hclock : wf_clock noon).
  { unfold wf_clock. simpl. repeat split; lia. }
  assert (Hle : on_or_before 2024 2 29 noon) by discriminate.
  split; [exact Hclock|]. split; [reflexivity|]. split; [reflexivity|].
  split; [exact Hle|].
  exact (birthday_round_trip noon book_ann ann "Ann" 2024 2 29 []
           Hclock eq_refl eq_refl Hle).
Defined.

(** ** The upcoming birthdays: C2, C3 *)

Lemma replace_year_raises t y e :
  Calendar.replace_year t y = Raise e -> e = ValueError.
Proof.
  unfold Calendar.replace_year. destruct (Calendar.check_date_fields _ _ _);
    [discriminate | intros [= <-]; reflexivity].
Qed.

Lemma occurrence_raises now t e : occurrence now t = Raise e -> e = ValueError.
Proof.
  unfold occurrence.
  destruct (Calendar.replace_year t (Calendar.year now)) as [ty|e'] eqn:E.
  - destruct (Calendar.lt ty now); [apply replace_year_raises | discriminate].
  - intros [= <-]. apply (replace_year_raises _ _ _ E).
Qed.

Lemma birthdays_step_listed {S} now days r n b t bd upcoming (st : S) out :
  named n b r ->
  Calendar.strptime b = Return t ->
  occurrence now t = Return bd ->
  birthdays_step now days r upcoming st out
  = (Return (if in_window now days bd then (upcoming ++ [(n, bd)])%list else upcoming),
     st, out).
Proof.
  intros [Hn Hb] Ht Hocc. unfold birthdays_step. rewrite Hb.
  unfold try_except, bind, getattr_value, lift, ret. cbn [value].
  rewrite Ht. unfold occurrence in Hocc.
  destruct (Calendar.replace_year t (Calendar.year now)) as [ty|e]; [|discriminate].
  destruct (Calendar.lt ty now).
  - unfold lift. rewrite Hocc. fold (in_window now days bd).
    destruct (in_window now days bd); [|reflexivity]. rewrite Hn. reflexivity.
  - injection Hocc as ->. unfold ret. fold (in_window now days bd).
    destruct (in_window now days bd); [|reflexivity]. rewrite Hn. reflexivity.
Qed.

Lemma birthdays_step_skipped {S} now days r n b t e upcoming (st : S) out :
  named n b r ->
  Calendar.strptime b = Return t ->
  occurrence now t = Raise e ->
  birthdays_step now days r upcoming st out
  = (Return upcoming, st,
     (out ++ [("Error processing birthday for " ++ n ++ ". Invalid date format.")%string])%list).
Proof.
  intros [Hn Hb] Ht Hocc. pose proof (occurrence_raises _ _ _ Hocc) as ->.
  unfold birthdays_step. rewrite Hb.
  unfold try_except, bind, getattr_value, lift, ret. cbn [value].
  rewrite Ht. unfold occurrence in Hocc.
  destruct (Calendar.replace_year t (Calendar.year now)) as [ty|e] eqn:E.
  - destruct (Calendar.lt ty now); [|discriminate].
    unfold lift. rewrite Hocc. cbn. rewrite Hn. reflexivity.
  - injection Hocc as ->. cbn. rewrite Hn. reflexivity.
Qed.

Lemma is_leap_spec y :
  Calendar.is_leap y = true <-> (y mod 4 = 0 /\ (y mod 100 <> 0 \/ y mod 400 = 0)).
Proof.
  unfold Calendar.is_leap.
  rewrite andb_true_iff, orb_true_iff, negb_true_iff, Z.eqb_neq, !Z.eqb_eq.
  tauto.
Qed.

Lemma days_before_year_succ y :
  Calendar.days_before_year (y + 1) - Calendar.days_before_year y
  = 365 + (if Calendar.is_leap y then 1 else 0).
Proof.
  unfold Calendar.days_before_year. cbv zeta.
  replace (y + 1 - 1) with y by lia.
  destruct (Calendar.is_leap y) eqn:E.
  - apply is_leap_spec in E. Z.div_mod_to_equations. lia.
  - assert (H : ~ (y mod 4 = 0 /\ (y mod 100 <> 0 \/ y mod 400 = 0))).
    { intros H. apply is_leap_spec in H. congruence. }
    Z.div_mod_to_equations. lia.
Qed.

Lemma ymd2ord_next_year y m d :
  365 <= Calendar.ymd2ord (y + 1) m d - Calendar.ymd2ord y m d.
Proof.
  unfold Calendar.ymd2ord, Calendar.days_before_month.
  pose proof (days_before_year_succ y) as Hy.
  pose proof (days_before_year_succ (y + 1)) as Hy'.
  destruct (2 <? m); cbn [andb];
    destruct (Calendar.is_leap y) eqn:E; destruct (Calendar.is_leap (y + 1)) eqn:E'; try lia.
Qed.

Lemma strptime_midnight v t :
  Calendar.strptime v = Return t ->
  Calendar.check_date_fields (Calendar.year t) (Calendar.month t) (Calendar.day t) = true
  /\ Calendar.hour t = 0 /\ Calendar.minute t = 0
  /\ Calendar.second t = 0 /\ Calendar.microsecond t = 0.
Proof.
  unfold Calendar.strptime.
  destruct (Calendar.format_regex v) as [|[[[d m] Y] fin] l]; [discriminate|].
  destruct (snd fin); [|discriminate].
  destruct (Calendar.check_date_fields _ _ _) eqn:E; [|discriminate].
  intros [= <-]. cbn. auto.
Qed.

Lemma microsecond_of_day_bounds now :
  wf_clock now -> 0 <= microsecond_of_day now < 86400 * 1000000.
Proof.
  intros (_ & Hh & Hmi & Hs & Hus).
  unfold microsecond_of_day, Calendar.second_of_day. lia.
Qed.

(** Midnight of today's date is before every later reading of that day. *)
Lemma lt_midnight_today now :
  wf_clock now -> 0 < microsecond_of_day now ->
  Calendar.lt (midnight (Calendar.year now) (Calendar.month now) (Calendar.day now))
              now = true.
Proof.
  intros (_ & Hh & Hmi & Hs & Hus) Hpos.
  unfold microsecond_of_day, Calendar.second_of_day in Hpos.
  unfold Calendar.lt, Calendar.cmp, Calendar.fields, midnight.
  destruct now as [Y M D h mi s us]. cbn [Calendar.year Calendar.month Calendar.day
    Calendar.hour Calendar.minute Calendar.second Calendar.microsecond] in *.
  cbn [Calendar.lex]. rewrite !Z.compare_refl.
  destruct (Z.compare_spec 0 h); [|reflexivity|lia].
  destruct (Z.compare_spec 0 mi); [|reflexivity|lia].
  destruct (Z.compare_spec 0 s); [|reflexivity|lia].
  destruct (Z.compare_spec 0 us); [lia|reflexivity|lia].
Qed.

(** From a reading of the clock that is not midnight to the midnight that
    starts a day: [.days] is one less than the difference of the dates. *)
Lemma days_to_midnight now y m d :
  wf_clock now -> 0 < microsecond_of_day now ->
  Calendar.days (Calendar.sub (midnight y m d) now)
  = Calendar.ymd2ord y m d - Calendar.toordinal now - 1.
Proof.
  intros (_ & Hh & Hmi & Hs & Hus) Hpos.
  unfold microsecond_of_day in Hpos.
  unfold Calendar.sub, Calendar.normalize, Calendar.toordinal, midnight.
  cbn [Calendar.days Calendar.year Calendar.month Calendar.day Calendar.microsecond].
  assert (Hsod : 0 <= Calendar.second_of_day now < 86400).
  { unfold Calendar.second_of_day. lia. }
  change (Calendar.second_of_day (Calendar.mkdatetime y m d 0 0 0 0)) with 0.
  remember (Calendar.second_of_day now) as sod.
  remember (Calendar.microsecond now) as us.
  assert ((0 - sod + (0 - us) / 1000000) / 86400 = -1).
  { Z.div_mod_to_equations. lia. }
  lia.
Qed.

Lemma days_at_midnight now y m d :
  wf_clock now -> microsecond_of_day now = 0 ->
  Calendar.days (Calendar.sub (midnight y m d) now)
  = Calendar.ymd2ord y m d - Calendar.toordinal now.
Proof.
  intros (_ & Hh & Hmi & Hs & Hus) Hpos.
  unfold microsecond_of_day in Hpos.
  unfold Calendar.sub, Calendar.normalize, Calendar.toordinal, midnight.
  cbn [Calendar.days Calendar.year Calendar.month Calendar.day Calendar.microsecond].
  assert (Hsod : 0 <= Calendar.second_of_day now < 86400).
  { unfold Calendar.second_of_day. lia. }
  change (Calendar.second_of_day (Calendar.mkdatetime y m d 0 0 0 0)) with 0.
  assert (Calendar.second_of_day now = 0) as -> by lia.
  assert (Calendar.microsecond now = 0) as -> by lia.
  cbn. lia.
Qed.

Lemma replace_year_midnight t y :
  Calendar.hour t = 0 -> Calendar.minute t = 0 ->
  Calendar.second t = 0 -> Calendar.microsecond t = 0 ->
  Calendar.replace_year t y
  = if Calendar.check_date_fields y (Calendar.month t) (Calendar.day t)
    then Return (midnight y (Calendar.month t) (Calendar.day t))
    else Raise ValueError.
Proof.
  intros Hh Hmi Hs Hus. unfold Calendar.replace_year, midnight.
  rewrite Hh, Hmi, Hs, Hus. reflexivity.
Qed.

(** A birthday that falls today is not listed, whatever the window below
    364 days, as soon as the clock is past midnight. *)
Lemma today_birthday_not_listed {S} now days r n b t upcoming (st : S) out :
  wf_clock now -> 0 < microsecond_of_day now ->
  named n b r ->
  Calendar.strptime b = Return t ->
  Calendar.month t = Calendar.month now ->
  Calendar.day t = Calendar.day now ->
  days < 364 ->
  result (birthdays_step now days r upcoming st out) = Return upcoming.
Proof.
  intros Hclock Hpos Hr Ht Hm Hd Hdays.
  destruct (strptime_midnight b t Ht) as (_ & Hh & Hmi & Hs & Hus).
  destruct (occurrence now t) as [bd|e] eqn:Hocc.
  - rewrite (birthdays_step_listed now days r n b t bd upcoming st out Hr Ht Hocc).
    unfold result. cbn [fst].
    unfold occurrence in Hocc.
    rewrite (replace_year_midnight t _ Hh Hmi Hs Hus), Hm, Hd in Hocc.
    destruct Hclock as (Hdate & Hrest). rewrite Hdate in Hocc.
    rewrite (lt_midnight_today now (conj Hdate Hrest) Hpos) in Hocc.
    rewrite replace_year_midnight in Hocc by reflexivity.
    cbn [midnight Calendar.month Calendar.day] in Hocc.
    destruct (Calendar.check_date_fields (Calendar.year now + 1) _ _);
      [|discriminate].
    injection Hocc as <-.
    unfold in_window.
    rewrite (days_to_midnight now _ _ _ (conj Hdate Hrest) Hpos).
    pose proof (ymd2ord_next_year (Calendar.year now) (Calendar.month now)
                  (Calendar.day now)) as Hnext.
    unfold Calendar.toordinal.
    destruct (_ <=? days) eqn:E.
    + apply Z.leb_le in E. lia.
    + rewrite andb_false_r. reflexivity.
  - rewrite (birthdays_step_skipped now days r n b t e upcoming st out Hr Ht Hocc).
    reflexivity.
Qed.

(** The window in dates.  Past midnight it is shifted by one day: the
    occurrences listed are those 1 to [days + 1] days after today. *)
Lemma in_window_past_midnight now days y m d :
  wf_clock now -> 0 < microsecond_of_day now ->
  in_window now days (midnight y m d)
  = (1 <=? Calendar.ymd2ord y m d - Calendar.toordinal now)
    && (Calendar.ymd2ord y m d - Calendar.toordinal now <=? days + 1).
Proof.
  intros Hclock Hpos. unfold in_window.
  rewrite (days_to_midnight now y m d Hclock Hpos).
  apply eq_true_iff_eq. rewrite !andb_true_iff, !Z.leb_le. lia.
Qed.

(** At midnight sharp it is the window of the dates 0 to [days] days after
    today. *)
Lemma in_window_at_midnight now days y m d :
  wf_clock now -> microsecond_of_day now = 0 ->
  in_window now days (midnight y m d)
  = (0 <=? Calendar.ymd2ord y m d - Calendar.toordinal now)
    && (Calendar.ymd2ord y m d - Calendar.toordinal now <=? days).
Proof.
  intros Hclock Hzero. unfold in_window.
  rewrite (days_at_midnight now y m d Hclock Hzero). reflexivity.
Qed.

Ltac eval_tables :=
  repeat match goal with
    | |- context [nth ?i ?l 0] =>
        let v := eval vm_compute in (nth i l 0) in change (nth i l 0) with v
    | |- context [Z.eqb ?a ?b] =>
        let v := eval vm_compute in (Z.eqb a b) in change (Z.eqb a b) with v
    | |- context [Z.ltb ?a ?b] =>
        let v := eval vm_compute in (Z.ltb a b) in change (Z.ltb a b) with v
    end;
  cbn [andb].

Lemma days_before_month_mono y m1 m2 d1 d2 :
  1 <= m1 -> m1 < m2 -> m2 <= 12 ->
  d1 <= Calendar.days_in_month y m1 -> 1 <= d2 ->
  Calendar.days_before_month y m1 + d1 < Calendar.days_before_month y m2 + d2.
Proof.
  intros H1 H12 H2 Hd1 Hd2.
  assert (Hm1 : In m1 (map (fun i => 1 + Z.of_nat i) (seq 0 12)))
    by (apply in_range_list; lia).
  assert (Hm2 : In m2 (map (fun i => 1 + Z.of_nat i) (seq 0 12)))
    by (apply in_range_list; lia).
  cbn in Hm1, Hm2.
  unfold Calendar.days_before_month, Calendar.days_in_month in *.
  revert Hd1.
  repeat (destruct Hm1 as [<-|Hm1]); try contradiction;
    repeat (destruct Hm2 as [<-|Hm2]); try contradiction; try lia;
    eval_tables; destruct (Calendar.is_leap y); lia.
Qed.

(** Midnight of a later date of this year is not before the clock. *)
Lemma lt_midnight_later now m d :
  wf_clock now ->
  Calendar.check_date_fields (Calendar.year now) m d = true ->
  Calendar.toordinal now < Calendar.ymd2ord (Calendar.year now) m d ->
  Calendar.lt (midnight (Calendar.year now) m d) now = false.
Proof.
  intros (Hdate & _) Hmd Hord.
  apply check_date_fields_bounds in Hdate, Hmd.
  unfold Calendar.toordinal, Calendar.ymd2ord in Hord.
  unfold Calendar.lt, Calendar.cmp, Calendar.fields, midnight.
  destruct now as [Y M D h mi s us]. cbn [Calendar.year Calendar.month Calendar.day
    Calendar.hour Calendar.minute Calendar.second Calendar.microsecond] in *.
  cbn [Calendar.lex]. rewrite Z.compare_refl.
  destruct (Z.compare_spec m M) as [->|Hlt|Hgt].
  - destruct (Z.compare_spec d D); [lia | lia | reflexivity].
  - pose proof (days_before_month_mono Y m M d D). lia.
  - reflexivity.
Qed.

(** With a window of 0 days and the clock past midnight, the birthday that
    falls tomorrow is listed. *)
Lemma tomorrow_birthday_listed {S} now r n b t upcoming (st : S) out :
  wf_clock now -> 0 < microsecond_of_day now ->
  named n b r ->
  Calendar.strptime b = Return t ->
  Calendar.check_date_fields (Calendar.year now) (Calendar.month t)
                             (Calendar.day t) = true ->
  Calendar.ymd2ord (Calendar.year now) (Calendar.month t) (Calendar.day t)
  = Calendar.toordinal now + 1 ->
  birthdays_step now 0 r upcoming st out
  = (Return (upcoming
             ++ [(n, midnight (Calendar.year now) (Calendar.month t)
                              (Calendar.day t))])%list,
     st, out).
Proof.
  intros Hclock Hpos Hr Ht Hmd Hord.
  destruct (strptime_midnight b t Ht) as (_ & Hh & Hmi & Hs & Hus).
  assert (Hocc : occurrence now t
                 = Return (midnight (Calendar.year now) (Calendar.month t)
                                    (Calendar.day t))).
  { unfold occurrence.
    rewrite (replace_year_midnight t _ Hh Hmi Hs Hus), Hmd.
    rewrite (lt_midnight_later now _ _ Hclock Hmd) by lia. reflexivity. }
  rewrite (birthdays_step_listed now 0 r n b t _ upcoming st out Hr Ht Hocc).
  rewrite (in_window_past_midnight now 0 _ _ _ Hclock Hpos), Hord.
  replace (Calendar.toordinal now + 1 - Calendar.toordinal now) with 1 by lia.
  reflexivity.
Qed.

(** C2.  The claim: the occurrence is rolled to next year exactly when this
    year's date fell before today, and the contact is listed iff the
    occurrence is 0 to [window_days] days after today.  The program at noon
    of 3 November 2026, for Ann born on a 3 November and a window of 7 days:
    this year's date, 3 November 2026 at midnight, is before the reading of
    the clock, so the occurrence is rolled to 3 November 2027, 364 days
    away, and Ann is not listed. *)
Theorem birthday_of_today_is_rolled :
  Calendar.replace_year (midnight 2000 11 3) (Calendar.year noon)
  = Return (midnight 2026 11 3)
  /\ Calendar.lt (midnight 2026 11 3) noon = true
  /\ Calendar.days (Calendar.sub (midnight 2027 11 3) noon) = 364
  /\ exec (birthdays_loop noon 7) book_today = (Return [], book_today, [])
  /\ exec (birthdays noon 7) book_today = (Return tt, book_today, []).
Proof. repeat split. Qed.

(** C3.  The claim: with a window of 0 days the query lists exactly the
    contacts whose birthday falls today.  The program one second after the
    midnight that starts 3 November 2026, for Ann born on a 3 November and
    Bob on a 4 November: Bob is listed, for 4 November 2026, and Ann is
    not. *)
Theorem window_zero_lists_tomorrow :
  exec (birthdays_loop just_after_midnight 0) book_today_tomorrow
  = (Return [("Bob", midnight 2026 11 4)], book_today_tomorrow, [])
  /\ exec (birthdays just_after_midnight 0) book_today_tomorrow
     = (Return tt, book_today_tomorrow, ["Bob's birthday is on 2026-11-04"]).
Proof. split; reflexivity. Qed.

(** * More of the program *)

(** ** [Record.delete_phone], [edit_phone], [find_phone] *)

Lemma delete_loop_valued {S} (x : string) (vs : list string) (kept : list Field)
  (st : S) (out : list string) :
  for_each (map phone_of vs) kept
    (fun phone kept =>
       v <- getattr_value phone ;;
       ret (if String.eqb v x then kept else (kept ++ [phone])%list)) st out
  = (Return (kept ++ map phone_of (filter (fun v => negb (String.eqb v x)) vs))%list,
     st, out).
Proof.
  revert kept. induction vs as [|v vs IH]; intros kept; simpl.
  - rewrite app_nil_r. reflexivity.
  - unfold bind at 1. unfold bind at 1. unfold getattr_value at 1. cbn [phone_of value].
    unfold ret at 1. unfold ret at 1.
    rewrite IH. destruct (String.eqb v x); simpl; [reflexivity|].
    rewrite <- app_assoc. reflexivity.
Qed.

Lemma delete_phone_valued (r : Record_) (x : string) (vs : list string)
  (out : list string) :
  phones r = map phone_of vs ->
  delete_phone x r out
  = (Return tt,
     with_phones r (map phone_of (filter (fun v => negb (String.eqb v x)) vs)),
     out).
Proof.
  intros Hps. unfold delete_phone. unfold bind at 1. unfold get at 1.
  unfold bind at 1. rewrite Hps, delete_loop_valued. reflexivity.
Qed.

Lemma find_phone_loop_valued {S} (x : string) (vs : list string) (st : S)
  (out : list string) :
  find_phone_loop (map phone_of vs) x st out
  = (Return (if existsb (String.eqb x) vs then Some x else None), st, out).
Proof.
  induction vs as [|v vs IH]; simpl; [reflexivity|].
  unfold bind at 1. unfold getattr_value at 1. cbn [phone_of value].
  unfold ret at 1. rewrite (String.eqb_sym x v).
  destruct (String.eqb_spec v x) as [->|Hne]; simpl; [reflexivity | exact IH].
Qed.

Lemma existsb_filter_out (x : string) (vs : list string) :
  existsb (String.eqb x) (filter (fun v => negb (String.eqb v x)) vs) = false.
Proof.
  induction vs as [|v vs IH]; simpl; [reflexivity|].
  destruct (String.eqb_spec v x) as [->|Hne]; simpl; [exact IH|].
  rewrite IH. destruct (String.eqb_spec x v); [congruence | reflexivity].
Qed.

(** X1.  On a record whose phones all have their text, [delete_phone]
    removes every phone equal to the number, keeps the others in their
    order and prints nothing; [find_phone] for that number then finds
    nothing. *)
Theorem delete_phone_removes {S} (r : Record_) (x : string) (vs : list string)
  (out : list string) (st : S) (out' : list string) :
  phones r = map phone_of vs ->
  delete_phone x r out
  = (Return tt,
     with_phones r (map phone_of (filter (fun v => negb (String.eqb v x)) vs)),
     out)
  /\ find_phone
       (with_phones r (map phone_of (filter (fun v => negb (String.eqb v x)) vs)))
       x st out'
     = (Return None, st, out').
Proof.
  intros Hps. split; [apply delete_phone_valued, Hps|].
  unfold find_phone. cbn [with_phones phones].
  rewrite find_phone_loop_valued, existsb_filter_out. reflexivity.
Qed.

Lemma delete_phone_removes_witness :
  phones ann = map phone_of ["1111111111"; "2222222222"]
  /\ delete_phone "1111111111" ann []
     = (Return tt, with_phones ann [phone_of "2222222222"], []).
Proof.
  split; [reflexivity|].
  exact (proj1 (delete_phone_removes (S := unit) ann "1111111111"
                  ["1111111111"; "2222222222"] [] tt [] eq_refl)).
Defined.

Lemma getattr_loop_raises {S A} (ps : list Field) (acc : A)
  (f : Field -> string -> A -> M S A) (st : S) (out : list string) :
  (forall p v a s o, final_state (f p v a s o) = s /\ output (f p v a s o) = o
                     /\ (exists a', result (f p v a s o) = Return a')) ->
  In no_attributes ps ->
  for_each ps acc (fun p a => v <- getattr_value p ;; f p v a) st out
  = (Raise AttributeError, st, out).
Proof.
  intros Hf. revert acc. induction ps as [|p ps IH]; intros acc Hin; [destruct Hin|].
  simpl. destruct p as [[v|]].
  - unfold bind at 1. unfold bind at 1. unfold getattr_value at 1. cbn [value].
    unfold ret at 1.
    destruct (Hf (mkField (Some v)) v acc st out) as (Hs & Ho & a' & Ha).
    destruct (f (mkField (Some v)) v acc st out) as [[res s'] o'].
    unfold final_state, output, result in *. simpl in *. subst.
    apply IH. destruct Hin as [Hin|Hin]; [discriminate | exact Hin].
  - reflexivity.
Qed.

(** X2.  When a phone of the record has no [value] (the object an
    [add_phone] with a refused number leaves), [delete_phone] ends with an
    [AttributeError] for every number, and the record is as before. *)
Theorem delete_phone_without_value (r : Record_) (x : string) (out : list string) :
  In no_attributes (phones r) ->
  delete_phone x r out = (Raise AttributeError, r, out).
Proof.
  intros Hin. unfold delete_phone. unfold bind at 1. unfold get at 1.
  unfold bind at 1.
  rewrite (getattr_loop_raises (phones r) []
             (fun phone v kept => ret (if String.eqb v x then kept else (kept ++ [phone])%list))).
  - reflexivity.
  - intros p v a s o. repeat split. eexists. reflexivity.
  - exact Hin.
Qed.

Lemma delete_phone_without_value_witness :
  In no_attributes (phones (with_phones ann [phone_of "1111111111"; no_attributes]))
  /\ delete_phone "1111111111"
       (with_phones ann [phone_of "1111111111"; no_attributes]) []
     = (Raise AttributeError,
        with_phones ann [phone_of "1111111111"; no_attributes], []).
Proof.
  assert (H : In no_attributes
                (phones (with_phones ann [phone_of "1111111111"; no_attributes])))
    by (right; left; reflexivity).
  split; [exact H|].
  exact (delete_phone_without_value _ "1111111111" [] H).
Defined.

Lemma set_nth_app {A} (done : list A) (x y : A) (rest : list A) :
  set_nth (length done) x (done ++ y :: rest) = (done ++ x :: rest)%list.
Proof. induction done as [|z done IH]; simpl; [reflexivity | rewrite IH; reflexivity]. Qed.

Lemma edit_loop_valued (old new : string) (vs : list string) (done : list Field)
  (s : Record_) (out : list string) :
  phones s = (done ++ map phone_of vs)%list ->
  for_each (enumerate_from (length done) (map phone_of vs)) tt
    (fun entry _ =>
       v <- getattr_value (snd entry) ;;
       if String.eqb v old then
         r <- get ;;
         put (mkRecord (name r)
                (set_nth (fst entry) (mkField (Some new)) (phones r))
                (birthday r))
       else ret tt) s out
  = (Return tt,
     with_phones s
       (done ++ map phone_of (map (fun v => if String.eqb v old then new else v) vs)),
     out).
Proof.
  revert done s. induction vs as [|v vs IH]; intros done s Hps.
  - simpl. rewrite app_nil_r in *. unfold with_phones. rewrite <- Hps.
    destruct s; reflexivity.
  - cbn [map enumerate_from for_each]. cbn [map] in Hps.
    unfold bind at 1. unfold bind at 1. unfold getattr_value at 1.
    cbn [snd fst phone_of value]. unfold ret at 1.
    destruct (String.eqb v old) eqn:E.
    + unfold bind at 1. unfold get at 1. unfold put at 1. cbv beta iota.
      rewrite Hps, set_nth_app.
      specialize (IH (done ++ [phone_of new])%list
                     (mkRecord (name s) (done ++ mkField (Some new) :: map phone_of vs)
                               (birthday s))).
      rewrite length_app in IH. simpl in IH. rewrite Nat.add_1_r in IH.
      rewrite IH.
      * unfold with_phones. cbn [name birthday]. rewrite <- app_assoc. reflexivity.
      * cbn [phones]. rewrite <- app_assoc. reflexivity.
    + unfold ret at 1.
      specialize (IH (done ++ [phone_of v])%list s).
      rewrite length_app in IH. simpl in IH. rewrite Nat.add_1_r in IH.
      rewrite IH.
      * rewrite <- app_assoc. reflexivity.
      * rewrite Hps, <- app_assoc. reflexivity.
Qed.

(** X3.  On a record whose phones all have their text, [edit_phone] puts
    the new text in place of every phone equal to the old number and leaves
    the others, their number and their order as they are; the new text is
    stored as given, whether [Phone] would accept it or not, and nothing is
    printed. *)
Theorem edit_phone_replaces (r : Record_) (old new : string) (vs : list string)
  (out : list string) :
  phones r = map phone_of vs ->
  edit_phone old new r out
  = (Return tt,
     with_phones r
       (map phone_of (map (fun v => if String.eqb v old then new else v) vs)),
     out).
Proof.
  intros Hps. unfold edit_phone. unfold bind at 1. unfold get at 1.
  rewrite Hps. apply (edit_loop_valued old new vs [] r out). exact Hps.
Qed.

Lemma edit_phone_replaces_witness :
  phones ann = map phone_of ["1111111111"; "2222222222"]
  /\ Phone_accepts "abc" = false
  /\ edit_phone "1111111111" "abc" ann []
     = (Return tt, with_phones ann [phone_of "abc"; phone_of "2222222222"], []).
Proof.
  split; [reflexivity|]. split; [reflexivity|].
  exact (edit_phone_replaces ann "1111111111" "abc"
           ["1111111111"; "2222222222"] [] eq_refl).
Defined.

(** X4.  On a record whose phones all have their text, [find_phone]
    returns the number when it is the text of one of the phones and [None]
    when it is not; it prints nothing. *)
Theorem find_phone_finds {S} (r : Record_) (x : string) (vs : list string)
  (st : S) (out : list string) :
  phones r = map phone_of vs ->
  find_phone r x st out
  = (Return (if existsb (String.eqb x) vs then Some x else None), st, out).
Proof.
  intros Hps. unfold find_phone. rewrite Hps. apply find_phone_loop_valued.
Qed.

Lemma find_phone_finds_witness :
  phones ann = map phone_of ["1111111111"; "2222222222"]
  /\ find_phone ann "2222222222" tt [] = (Return (Some "2222222222"), tt, [])
  /\ find_phone ann "3333333333" tt [] = (Return None, tt, []).
Proof.
  split; [reflexivity|]. split.
  - exact (find_phone_finds ann "2222222222" ["1111111111"; "2222222222"]
             tt [] eq_refl).
  - exact (find_phone_finds ann "3333333333" ["1111111111"; "2222222222"]
             tt [] eq_refl).
Defined.

Lemma existsb_eqb_filter (v : string) (vs : list string) :
  existsb (String.eqb v) vs = false ->
  filter (fun w => negb (String.eqb w v)) vs = vs.
Proof.
  induction vs as [|w vs IH]; simpl; [reflexivity|].
  rewrite orb_false_iff. intros [Hw Hvs].
  rewrite String.eqb_sym, Hw. simpl. rewrite (IH Hvs). reflexivity.
Qed.

(** X5.  On a record whose phones all have their text, for a number that
    [Phone] accepts and that the record does not have yet: [add_phone]
    followed by [delete_phone] of that number gives the record back as it
    was, and prints nothing. *)
Theorem add_then_delete_phone (r : Record_) (v : string) (vs : list string)
  (out : list string) :
  phones r = map phone_of vs ->
  existsb (String.eqb v) vs = false ->
  Phone_accepts v = true ->
  (add_phone v ;; delete_phone v) r out = (Return tt, r, out).
Proof.
  intros Hps Hnew Hok. unfold bind.
  rewrite (add_phone_accepted r v out Hok).
  rewrite (delete_phone_valued _ v (vs ++ [v]) out).
  - rewrite filter_app, (existsb_eqb_filter v vs Hnew). simpl.
    rewrite String.eqb_refl. simpl. rewrite app_nil_r.
    unfold with_phones. cbn [name birthday]. rewrite <- Hps.
    destruct r; reflexivity.
  - cbn [phones]. rewrite Hps, map_app. reflexivity.
Qed.

Lemma add_then_delete_phone_witness :
  phones ann = map phone_of ["1111111111"; "2222222222"]
  /\ existsb (String.eqb "3333333333") ["1111111111"; "2222222222"] = false
  /\ Phone_accepts "3333333333" = true
  /\ (add_phone "3333333333" ;; delete_phone "3333333333") ann []
     = (Return tt, ann, []).
Proof.
  split; [reflexivity|]. split; [reflexivity|]. split; [reflexivity|].
  exact (add_then_delete_phone ann "3333333333" ["1111111111"; "2222222222"] []
           eq_refl eq_refl eq_refl).
Defined.

(** ** [Record.__str__] *)

Lemma strs_valued_from {S} (vs done : list string) (st : S) (out : list string) :
  for_each (map phone_of vs) done
    (fun p done => s <- Field__str__ p ;; ret (done ++ [s])%list) st out
  = (Return (done ++ vs)%list, st, out).
Proof.
  revert done. induction vs as [|v vs IH]; intros done; simpl.
  - rewrite app_nil_r. reflexivity.
  - unfold bind at 1. unfold bind at 1. unfold Field__str__, getattr_value at 1.
    cbn [phone_of value]. unfold ret at 1. unfold ret at 1.
    rewrite IH, <- app_assoc. reflexivity.
Qed.

Lemma strs_valued {S} (vs : list string) (st : S) (out : list string) :
  strs (map phone_of vs) st out = (Return vs, st, out).
Proof. apply (strs_valued_from vs []). Qed.

Lemma strs_without_value {S} (ps : list Field) (st : S) (out : list string) :
  In no_attributes ps -> strs ps st out = (Raise AttributeError, st, out).
Proof.
  intros Hin. unfold strs, Field__str__.
  apply (getattr_loop_raises ps [] (fun _ s done => ret (done ++ [s])%list)).
  - intros p v a s o. repeat split. eexists. reflexivity.
  - exact Hin.
Qed.

Lemma strs_outcome_from {S} (ps : list Field) (done : list string) (st : S)
  (out : list string) :
  let body := fun (p : Field) (done : list string) =>
                @bind S _ _ (Field__str__ p) (fun s => ret (done ++ [s])%list) in
  (exists l, for_each ps done body st out = (Return l, st, out))
  \/ for_each ps done body st out = (Raise AttributeError, st, out).
Proof.
  intros body. revert done.
  induction ps as [|[[v|]] ps IH]; intros done; simpl.
  - left. eexists. reflexivity.
  - assert (Hb : body (mkField (Some v)) done st out
                 = (Return (done ++ [v])%list, st, out)) by reflexivity.
    unfold bind. rewrite Hb. apply IH.
  - right. reflexivity.
Qed.

Lemma strs_outcome {S} (ps : list Field) (st : S) (out : list string) :
  (exists l, strs ps st out = (Return l, st, out))
  \/ strs ps st out = (Raise AttributeError, st, out).
Proof. apply (strs_outcome_from ps []). Qed.

Lemma Record_str_valued {S} (n : string) (vs : list string) (b : option string)
  (st : S) (out : list string) :
  Record__str__ (mkRecord (mkField (Some n)) (map phone_of vs)
                          (option_map phone_of b)) st out
  = (Return ("Contact name: " ++ n ++ ", phones: " ++ Text.join "; " vs
             ++ match b with
                | Some t => ", birthday: " ++ t
                | None => ""
                end),
     st, out).
Proof.
  unfold Record__str__. cbn [phones birthday name].
  unfold bind at 1. rewrite strs_valued.
  destruct b as [t|]; reflexivity.
Qed.

Lemma Record_str_raises {S} (r : Record_) (st : S) (out : list string) :
  value (name r) = None \/ In no_attributes (phones r)
  \/ birthday r = Some no_attributes ->
  Record__str__ r st out = (Raise AttributeError, st, out).
Proof.
  intros H. unfold Record__str__. unfold bind at 1.
  destruct (strs_outcome (phones r) st out) as [[l Hl]|Hl].
  - destruct H as [Hname|[Hin|Hbd]].
    + rewrite Hl. unfold bind at 1.
      destruct (birthday r) as [[[t|]]|]; unfold getattr_value; rewrite Hname;
        reflexivity.
    + rewrite (strs_without_value _ st out Hin) in Hl. discriminate.
    + rewrite Hl, Hbd. reflexivity.
  - rewrite Hl. reflexivity.
Qed.

Lemma phones_cases (ps : list Field) :
  In no_attributes ps \/ exists vs, ps = map phone_of vs.
Proof.
  induction ps as [|[[v|]] ps IH].
  - right. exists []. reflexivity.
  - destruct IH as [Hin | [vs ->]].
    + left. right. exact Hin.
    + right. exists (v :: vs). reflexivity.
  - left. left. reflexivity.
Qed.

(** X6.  [str(record)] is the line [Contact name: n, phones: p1; p2] with
    the suffix [, birthday: b] when there is a birthday, and it ends with an
    [AttributeError] exactly when the name, a phone or the birthday has no
    [value]; it prints nothing. *)
Theorem Record_str_spec {S} (st : S) (out : list string) :
  (forall (n : string) (vs : list string) (b : option string),
      Record__str__ (mkRecord (phone_of n) (map phone_of vs)
                              (option_map phone_of b)) st out
      = (Return ("Contact name: " ++ n ++ ", phones: " ++ Text.join "; " vs
                 ++ match b with
                    | Some t => ", birthday: " ++ t
                    | None => ""
                    end),
         st, out))
  /\ (forall r : Record_,
         Record__str__ r st out = (Raise AttributeError, st, out) <->
         value (name r) = None \/ In no_attributes (phones r)
         \/ birthday r = Some no_attributes).
Proof.
  split; [intros n vs b; apply Record_str_valued|].
  intros r. split; [|apply Record_str_raises].
  destruct r as [[[n|]] ps bd]; [|intros _; left; reflexivity].
  destruct (phones_cases ps) as [Hin | [vs ->]]; [intros _; right; left; exact Hin|].
  destruct bd as [[[t|]]|].
  - intros H.
    discriminate (eq_trans (eq_sym H) (Record_str_valued n vs (Some t) st out)).
  - intros _. right. right. reflexivity.
  - intros H.
    discriminate (eq_trans (eq_sym H) (Record_str_valued n vs None st out)).
Qed.

Lemma Record_str_spec_witness :
  (value (name nameless) = None \/ In no_attributes (phones nameless)
   \/ birthday nameless = Some no_attributes)
  /\ Record__str__ nameless tt [] = (Raise AttributeError, tt, []).
Proof.
  assert (H : value (name nameless) = None \/ In no_attributes (phones nameless)
              \/ birthday nameless = Some no_attributes) by (left; reflexivity).
  split; [exact H|].
  exact (proj2 (proj2 (Record_str_spec tt []) nameless) H).
Defined.

(** ** The store: [add_record], [find_record], deleting *)

Section DictMore.
Context {V : Type}.
Implicit Types (d : list (string * V)) (k : string) (v : V).

Lemma keys_set_absent k v d :
  Dict.mem k d = false -> Dict.keys (Dict.set k v d) = (Dict.keys d ++ [k])%list.
Proof.
  unfold Dict.mem. induction d as [|[k0 v0] d IH]; simpl; [reflexivity|].
  destruct (String.eqb k0 k); [discriminate|].
  intros H. simpl. rewrite (IH H). reflexivity.
Qed.

Lemma get_del_other k k' d :
  k' <> k -> Dict.get k' (Dict.del k d) = Dict.get k' d.
Proof.
  intros Hk. induction d as [|[k0 v0] d IH]; simpl; [reflexivity|].
  destruct (String.eqb_spec k0 k) as [->|Hne].
  - destruct (String.eqb_spec k k'); [congruence | reflexivity].
  - simpl. destruct (String.eqb k0 k'); [reflexivity | exact IH].
Qed.

Lemma get_none_not_in k d : Dict.get k d = None <-> ~ In k (Dict.keys d).
Proof.
  induction d as [|[k0 v0] d IH]; simpl.
  - tauto.
  - destruct (String.eqb_spec k0 k) as [->|Hne].
    + split; [discriminate | intros H; exfalso; apply H; left; reflexivity].
    + rewrite IH. tauto.
Qed.

Lemma keys_del_subset k k' d : In k' (Dict.keys (Dict.del k d)) -> In k' (Dict.keys d).
Proof.
  induction d as [|[k0 v0] d IH]; simpl; [tauto|].
  destruct (String.eqb k0 k); simpl; tauto.
Qed.

Lemma NoDup_keys_del k d : NoDup (Dict.keys d) -> NoDup (Dict.keys (Dict.del k d)).
Proof.
  induction d as [|[k0 v0] d IH]; simpl; [auto|].
  intros Hnd. inversion Hnd as [|? ? Hnotin Hnd']; subst.
  destruct (String.eqb k0 k); [exact Hnd'|].
  simpl. constructor; [|apply IH, Hnd'].
  intros Hin. apply Hnotin. apply (keys_del_subset k), Hin.
Qed.

Lemma NoDup_keys_set k v d : NoDup (Dict.keys d) -> NoDup (Dict.keys (Dict.set k v d)).
Proof.
  intros Hnd. destruct (Dict.mem k d) eqn:E.
  - rewrite keys_set_present by exact E. exact Hnd.
  - rewrite keys_set_absent by exact E.
    apply NoDup_app; [exact Hnd | constructor; [tauto | constructor] |].
    intros x Hx Hk. destruct Hk as [Hk|[]]. subst x. unfold Dict.mem in E.
    destruct (Dict.get k d) eqn:G; [discriminate|].
    apply get_none_not_in in G. contradiction.
Qed.

End DictMore.

(** X7.  [add_record] files the record under its name: [find_record] for
    that name then returns it, whatever was there before; the other contacts
    are as they were; the name keeps its place among the keys when it was
    one, and goes last when it was not. *)
Theorem add_record_then_find (r : Record_) (n : string) (book : AddressBook)
  (out : list string) :
  value (name r) = Some n ->
  let book' := mkAddressBook (Dict.set n r (data book)) in
  (add_record r ;; find_record n) book out = (Return (Some r), book', out)
  /\ (forall k, k <> n -> Dict.get k (data book') = Dict.get k (data book))
  /\ Dict.keys (data book')
     = (if Dict.mem n (data book) then Dict.keys (data book)
        else (Dict.keys (data book) ++ [n])%list).
Proof.
  intros Hn book'. split; [|split].
  - unfold add_record, find_record, bind, getattr_value, get, put, ret.
    rewrite Hn. cbn [data]. rewrite get_set_same. reflexivity.
  - intros k Hk. apply get_set_other, Hk.
  - destruct (Dict.mem n (data book)) eqn:E.
    + apply keys_set_present, E.
    + apply keys_set_absent, E.
Qed.

Lemma add_record_then_find_witness :
  value (name ann) = Some "Ann"
  /\ (add_record ann ;; find_record "Ann") book_today_tomorrow []
     = (Return (Some ann),
        mkAddressBook [("Ann", ann); contact "Bob" "04.11.1990"], []).
Proof.
  split; [reflexivity|].
  exact (proj1 (add_record_then_find ann "Ann" book_today_tomorrow [] eq_refl)).
Defined.

(** X8.  In a book where each name is a key once, after [del_contact]
    the name is not found any more ([find_record] returns [None]), every
    other contact is as it was, and each name is still a key once. *)
Theorem del_contact_then_find (n : string) (book : AddressBook) (out : list string) :
  NoDup (Dict.keys (data book)) ->
  exists book' out',
    del_contact n book out = (Return tt, book', out')
    /\ find_record n book' out' = (Return None, book', out')
    /\ (forall k, k <> n -> Dict.get k (data book') = Dict.get k (data book))
    /\ NoDup (Dict.keys (data book')).
Proof.
  intros Hnd.
  unfold del_contact, bind, get.
  destruct (Dict.mem n (data book)) eqn:E.
  - eexists. eexists. split; [reflexivity|]. cbn [data]. split; [|split].
    + unfold find_record, bind, get, ret. cbn [data].
      pose proof (mem_del n (data book) Hnd) as H. unfold Dict.mem in H.
      destruct (Dict.get n (Dict.del n (data book))); [discriminate | reflexivity].
    + intros k Hk. apply get_del_other, Hk.
    + apply NoDup_keys_del, Hnd.
  - eexists. eexists. split; [reflexivity|]. split; [|split].
    + unfold find_record, bind, get, ret. unfold Dict.mem in E.
      destruct (Dict.get n (data book)); [discriminate | reflexivity].
    + reflexivity.
    + exact Hnd.
Qed.

Lemma del_contact_then_find_witness :
  NoDup (Dict.keys (data book_today_tomorrow))
  /\ exists book' out',
       del_contact "Ann" book_today_tomorrow [] = (Return tt, book', out')
       /\ find_record "Ann" book' out' = (Return None, book', out')
       /\ (forall k, k <> "Ann" ->
           Dict.get k (data book') = Dict.get k (data book_today_tomorrow))
       /\ NoDup (Dict.keys (data book')).
Proof.
  assert (H : NoDup (Dict.keys (data book_today_tomorrow))).
  { constructor.
    - intros [E|[]]. discriminate E.
    - constructor; [intros [] | constructor]. }
  split; [exact H|].
  exact (del_contact_then_find "Ann" book_today_tomorrow [] H).
Defined.

(** ** [add_birthday] and [show_birthday] *)

Lemma add_birthday_bad_format (now : Calendar.datetime) (n v : string)
  (book : AddressBook) (out : list string) :
  Re.matches birthday_pattern v = false ->
  add_birthday now n v book out
  = (Return tt, book, (out ++ ["Invalid date format. Use DD.MM.YYYY"])%list).
Proof.
  intros H. unfold add_birthday. unfold bind at 1. unfold is_valid_format, ret.
  rewrite H. reflexivity.
Qed.

Lemma add_birthday_bad_date (now : Calendar.datetime) (n v : string)
  (book : AddressBook) (out : list string) :
  Re.matches birthday_pattern v = true ->
  is_valid_date now v book out = (Return false, book, out) ->
  add_birthday now n v book out
  = (Return tt, book, (out ++ ["Invalid date. Please enter a valid date."])%list).
Proof.
  intros H Hd. unfold add_birthday. unfold bind at 1. unfold is_valid_format, ret.
  rewrite H. cbn [negb]. unfold bind at 1. rewrite Hd. reflexivity.
Qed.

Lemma add_birthday_not_found (now t : Calendar.datetime) (n v : string)
  (book : AddressBook) (out : list string) :
  Re.matches birthday_pattern v = true ->
  Calendar.strptime v = Return t -> Calendar.le t now = true ->
  Dict.mem n (data book) = false ->
  add_birthday now n v book out
  = (Return tt, book, (out ++ ["Contact not found."])%list).
Proof.
  intros H Ht Hle Hn. unfold add_birthday. unfold bind at 1.
  unfold is_valid_format, ret. rewrite H. cbn [negb]. unfold bind at 1.
  rewrite (is_valid_date_parsed now t v book out Ht), Hle. cbn [negb].
  unfold bind, get. rewrite Hn. reflexivity.
Qed.

Lemma add_birthday_sets (now t : Calendar.datetime) (n v : string) (r : Record_)
  (book : AddressBook) (out : list string) :
  Re.matches birthday_pattern v = true ->
  Calendar.strptime v = Return t -> Calendar.le t now = true ->
  Dict.get n (data book) = Some r ->
  add_birthday now n v book out
  = (Return tt,
     mkAddressBook (Dict.set n (with_birthday r v) (data book)),
     (out ++ [("Birthday added for contact '" ++ n ++ "'.")%string])%list).
Proof.
  intros H Ht Hle Hget.
  assert (Hmem : Dict.mem n (data book) = true).
  { apply mem_get. exists r. exact Hget. }
  unfold add_birthday. unfold bind at 1.
  unfold is_valid_format, ret. rewrite H. cbn [negb]. unfold bind at 1.
  rewrite (is_valid_date_parsed now t v book out Ht), Hle. cbn [negb].
  unfold bind at 1. unfold get at 1. rewrite Hmem.
  unfold bind at 1. unfold Birthday, new, Field__init__, put at 1.
  unfold bind at 1. unfold on_record. rewrite Hget.
  unfold bind at 1. unfold get at 1. unfold put at 1. reflexivity.
Qed.

(** X9.  [add_birthday] leaves the book as it is and prints one line when
    the text does not have the format, when it has but is not a date that
    [strptime] reads and that is not after the clock, and when both hold but
    the name is not a key; the format is looked at first, then the date,
    then the name. *)
Theorem add_birthday_refusals (now : Calendar.datetime) (n v : string)
  (book : AddressBook) (out : list string) :
  Re.matches birthday_pattern v && date_ok now v && Dict.mem n (data book)
  = false ->
  add_birthday now n v book out
  = (Return tt, book, (out ++ [refusal now v])%list).
Proof.
  unfold refusal, date_ok.
  destruct (Re.matches birthday_pattern v) eqn:Hf; cbn [andb negb];
    [|intros _; apply add_birthday_bad_format, Hf].
  destruct (Calendar.strptime v) as [t|e] eqn:Ht.
  - destruct (Calendar.le t now) eqn:Hle; cbn [andb negb].
    + intros Hn. apply (add_birthday_not_found now t); assumption.
    + intros _. apply add_birthday_bad_date; [exact Hf|].
      rewrite (is_valid_date_parsed now t v book out Ht), Hle. reflexivity.
  - intros _. apply add_birthday_bad_date; [exact Hf|].
    apply (is_valid_date_unparsed now v e book out Ht).
Qed.

Lemma add_birthday_refusals_witness :
  Re.matches birthday_pattern "01.01.2000" && date_ok noon "01.01.2000"
    && Dict.mem "Bob" (data book_ann) = false
  /\ add_birthday noon "Bob" "01.01.2000" book_ann []
     = (Return tt, book_ann, ["Contact not found."]).
Proof.
  split; [reflexivity|].
  exact (add_birthday_refusals noon "Bob" "01.01.2000" book_ann [] eq_refl).
Defined.

Lemma le_midnight_after y m d now :
  after_today y m d now -> Calendar.le (midnight y m d) now = false.
Proof.
  unfold after_today, Calendar.le, Calendar.cmp, Calendar.fields, midnight.
  destruct now as [Y M D h mi s us]. cbn [Calendar.year Calendar.month Calendar.day
    Calendar.hour Calendar.minute Calendar.second Calendar.microsecond Calendar.lex].
  destruct (y ?= Y); [|discriminate|reflexivity].
  destruct (m ?= M); [|discriminate|reflexivity].
  destruct (d ?= D); [discriminate|discriminate|reflexivity].
Qed.

(** X10.  The text [DD.MM.YYYY] of a date of the calendar that is after
    today's date: [add_birthday] prints the invalid-date line and leaves the
    book as it is, whether the name is a key or not. *)
Theorem add_birthday_future (now : Calendar.datetime) (n : string) (y m d : Z)
  (book : AddressBook) (out : list string) :
  Calendar.check_date_fields y m d = true ->
  after_today y m d now ->
  add_birthday now n (render_birthday y m d) book out
  = (Return tt, book, (out ++ ["Invalid date. Please enter a valid date."])%list).
Proof.
  intros Hdate Hafter. apply add_birthday_bad_date.
  - apply birthday_pattern_render.
  - rewrite (is_valid_date_parsed now _ _ book out (strptime_render y m d Hdate)).
    change (Calendar.mkdatetime y m d 0 0 0 0) with (midnight y m d).
    rewrite (le_midnight_after y m d now Hafter). reflexivity.
Qed.

Lemma add_birthday_future_witness :
  Calendar.check_date_fields 2026 11 4 = true
  /\ after_today 2026 11 4 noon
  /\ add_birthday noon "Ann" "04.11.2026" book_ann []
     = (Return tt, book_ann, ["Invalid date. Please enter a valid date."]).
Proof.
  split; [reflexivity|]. split; [reflexivity|].
  exact (add_birthday_future noon "Ann" 2026 11 4 book_ann [] eq_refl eq_refl).
Defined.

Lemma strptime_render_not_a_date y m d :
  0 <= y <= 9999 -> 1 <= m <= 12 -> 1 <= d <= 31 ->
  Calendar.check_date_fields y m d = false ->
  Calendar.strptime (render_birthday y m d) = Raise ValueError.
Proof.
  intros Hy Hm Hd Hbad. unfold render_birthday.
  assert (HY : Calendar.zfill 4 y =
    String (Calendar.digit (y / 10 / 10 / 10)) (String (Calendar.digit (y / 10 / 10))
      (String (Calendar.digit (y / 10)) (String (Calendar.digit y) ""))))
    by reflexivity.
  rewrite HY.
  rewrite strptime_chars; try apply is_decimal_digit.
  - rewrite <- HY, int_zfill4 by lia. rewrite Hbad. reflexivity.
  - apply (in_range_list 1 31). lia.
  - apply (in_range_list 1 12). lia.
Qed.

(** X11.  The text [DD.MM.YYYY] of a day from 01 to 31, a month from 01 to
    12 and a year from 0000 to 9999 that are not a date of the calendar (a
    day the month does not have, or the year 0000): [add_birthday] prints
    the invalid-date line and leaves the book as it is. *)
Theorem add_birthday_not_a_date (now : Calendar.datetime) (n : string) (y m d : Z)
  (book : AddressBook) (out : list string) :
  0 <= y <= 9999 -> 1 <= m <= 12 -> 1 <= d <= 31 ->
  Calendar.check_date_fields y m d = false ->
  add_birthday now n (render_birthday y m d) book out
  = (Return tt, book, (out ++ ["Invalid date. Please enter a valid date."])%list).
Proof.
  intros Hy Hm Hd Hbad. apply add_birthday_bad_date.
  - apply birthday_pattern_render.
  - apply (is_valid_date_unparsed now _ ValueError).
    apply strptime_render_not_a_date; assumption.
Qed.

Lemma add_birthday_not_a_date_witness :
  0 <= 2023 <= 9999 /\ 1 <= 2 <= 12 /\ 1 <= 29 <= 31
  /\ Calendar.check_date_fields 2023 2 29 = false
  /\ add_birthday noon "Ann" "29.02.2023" book_ann []
     = (Return tt, book_ann, ["Invalid date. Please enter a valid date."]).
Proof.
  assert (Hy : 0 <= 2023 <= 9999) by lia.
  assert (Hm : 1 <= 2 <= 12) by lia.
  assert (Hd : 1 <= 29 <= 31) by lia.
  split; [exact Hy|]. split; [exact Hm|]. split; [exact Hd|].
  split; [reflexivity|].
  exact (add_birthday_not_a_date noon "Ann" 2023 2 29 book_ann [] Hy Hm Hd eq_refl).
Defined.

(** X12.  When [add_birthday] accepts the text, the contact keeps its name
    and its phones and has the text as its birthday, in place of any earlier
    one; the other contacts and the order of the keys are as they were. *)
Theorem add_birthday_frame (now : Calendar.datetime) (n : string) (y m d : Z)
  (r : Record_) (book : AddressBook) (out : list string) :
  wf_clock now ->
  Calendar.check_date_fields y m d = true ->
  on_or_before y m d now ->
  Dict.get n (data book) = Some r ->
  let book' := final_state (add_birthday now n (render_birthday y m d) book out) in
  Dict.get n (data book') = Some (with_birthday r (render_birthday y m d))
  /\ (forall k, k <> n -> Dict.get k (data book') = Dict.get k (data book))
  /\ Dict.keys (data book') = Dict.keys (data book).
Proof.
  intros Hclock Hdate Hle Hget book'. subst book'.
  rewrite (add_birthday_sets now (midnight y m d) n _ r book out).
  - unfold final_state. cbn [fst snd data]. split; [|split].
    + apply get_set_same.
    + intros k Hk. apply get_set_other, Hk.
    + apply keys_set_present, mem_get. exists r. exact Hget.
  - apply birthday_pattern_render.
  - apply strptime_render, Hdate.
  - apply le_midnight; assumption.
  - exact Hget.
Qed.

Lemma add_birthday_frame_witness :
  wf_clock noon
  /\ Calendar.check_date_fields 2024 2 29 = true
  /\ on_or_before 2024 2 29 noon
  /\ Dict.get "Bob" (data book_today_tomorrow)
     = Some (snd (contact "Bob" "04.11.1990"))
  /\ Dict.get "Bob"
       (data (final_state (add_birthday noon "Bob" "29.02.2024"
                             book_today_tomorrow [])))
     = Some (with_birthday (snd (contact "Bob" "04.11.1990")) "29.02.2024").
Proof.
  assert (Hclock : wf_clock noon).
  { unfold wf_clock. simpl. repeat split; lia. }
  assert (Hle : on_or_before 2024 2 29 noon) by discriminate.
  split; [exact Hclock|]. split; [reflexivity|]. split; [exact Hle|].
  split; [reflexivity|].
  exact (proj1 (add_birthday_frame noon "Bob" 2024 2 29 _ book_today_tomorrow []
                  Hclock eq_refl Hle eq_refl)).
Defined.

(** X13.  [show_birthday] for a name that is not a key, or whose record
    has no birthday, prints that no birthday information was found and
    leaves the book as it is. *)
Theorem show_birthday_not_found (n : string) (book : AddressBook) (out : list string) :
  (forall r, Dict.get n (data book) = Some r -> birthday r = None) ->
  show_birthday n book out
  = (Return tt, book, (out ++ ["Birthday information not found."])%list).
Proof.
  intros H. unfold show_birthday, bind, get.
  destruct (Dict.get n (data book)) as [[nm ps [bd|]]|] eqn:E; try reflexivity.
  specialize (H _ eq_refl). discriminate.
Qed.

Lemma show_birthday_not_found_witness :
  (forall r, Dict.get "Ann" (data book_ann) = Some r -> birthday r = None)
  /\ show_birthday "Ann" book_ann []
     = (Return tt, book_ann, ["Birthday information not found."]).
Proof.
  assert (H : forall r, Dict.get "Ann" (data book_ann) = Some r -> birthday r = None).
  { intros r E. injection E as <-. reflexivity. }
  split; [exact H|].
  exact (show_birthday_not_found "Ann" book_ann [] H).
Defined.

Lemma read_only_show_birthday (n : string) : read_only (show_birthday n).
Proof.
  unfold show_birthday. apply read_only_bind; [apply read_only_get|].
  intros self. destruct (Dict.get n (data self)) as [[nm ps [bd|]]|].
  - apply read_only_bind; [apply read_only_getattr_value|].
    intros text. apply read_only_print.
  - apply read_only_print.
  - apply read_only_print.
Qed.

(** ** [change]: what it leaves alone *)

Lemma change_final (n v : string) (book : AddressBook) (out : list string) :
  final_state (change n v book out) = book
  \/ exists r ps,
       Dict.get n (data book) = Some r
       /\ final_state (change n v book out)
          = mkAddressBook (Dict.set n (with_phones r ps) (data book)).
Proof.
  destruct (change_accepts v) eqn:Hv.
  - destruct (Dict.get n (data book)) as [r|] eqn:Hget.
    + right. exists r.
      assert (Hmem : Dict.mem n (data book) = true).
      { apply mem_get. exists r. exact Hget. }
      unfold change_accepts in Hv. apply negb_true_iff in Hv.
      unfold change. rewrite Hv.
      unfold bind at 1. unfold get at 1. rewrite Hmem.
      unfold bind at 1. unfold on_record. rewrite Hget.
      unfold bind at 1. unfold get at 1. unfold bind at 1. unfold put at 1.
      destruct (Phone_accepts v) eqn:Hp.
      * rewrite (add_phone_accepted _ v out Hp). eexists. split; reflexivity.
      * rewrite (add_phone_rejected _ v out Hp). eexists. split; reflexivity.
    + left. rewrite (change_not_found n v book out Hv); [reflexivity|].
      unfold Dict.mem. rewrite Hget. reflexivity.
  - left. rewrite (change_rejected n v book out Hv). reflexivity.
Qed.

(** X14.  Whatever the name and the text, [change] touches no contact but
    the named one, keeps the keys and their order, and keeps the name and
    the birthday of the named contact: only its phone list can change. *)
Theorem change_frame (n v : string) (book : AddressBook) (out : list string) :
  let book' := final_state (change n v book out) in
  (forall k, k <> n -> Dict.get k (data book') = Dict.get k (data book))
  /\ Dict.keys (data book') = Dict.keys (data book)
  /\ (forall r, Dict.get n (data book) = Some r ->
        exists ps, Dict.get n (data book') = Some (with_phones r ps)).
Proof.
  intros book'. subst book'.
  destruct (change_accepts v) eqn:Hv.
  - destruct (Dict.get n (data book)) as [r|] eqn:Hget.
    + assert (Hmem : Dict.mem n (data book) = true).
      { apply mem_get. exists r. exact Hget. }
      assert (E : exists ps out',
                 change n v book out
                 = (Return tt,
                    mkAddressBook (Dict.set n (with_phones r ps) (data book)),
                    out')).
      { unfold change_accepts in Hv. apply negb_true_iff in Hv.
        unfold change. rewrite Hv.
        unfold bind at 1. unfold get at 1. rewrite Hmem.
        unfold bind at 1. unfold on_record. rewrite Hget.
        unfold bind at 1. unfold get at 1. unfold bind at 1. unfold put at 1.
        destruct (Phone_accepts v) eqn:Hp.
        - rewrite (add_phone_accepted _ v out Hp). eexists. eexists. reflexivity.
        - rewrite (add_phone_rejected _ v out Hp). eexists. eexists. reflexivity. }
      destruct E as (ps & out' & E). rewrite E.
      unfold final_state. cbn [fst snd data]. split; [|split].
      * intros k Hk. apply get_set_other, Hk.
      * apply keys_set_present, Hmem.
      * intros r' [= <-]. exists ps. apply get_set_same.
    + assert (Hmem : Dict.mem n (data book) = false).
      { unfold Dict.mem. rewrite Hget. reflexivity. }
      rewrite (change_not_found n v book out Hv Hmem).
      unfold final_state. cbn [fst snd]. split; [|split]; try reflexivity.
      intros r Hr. congruence.
  - rewrite (change_rejected n v book out Hv).
    unfold final_state. cbn [fst snd]. split; [|split]; try reflexivity.
    intros r Hr. exists (phones r). rewrite Hr. destruct r; reflexivity.
Qed.

Lemma change_frame_witness :
  "Bob" <> "Ann"
  /\ Dict.get "Bob"
       (data (final_state (change "Ann" "3333333333" book_today_tomorrow [])))
     = Dict.get "Bob" (data book_today_tomorrow).
Proof.
  assert (H : "Bob" <> "Ann") by discriminate.
  split; [exact H|].
  exact (proj1 (change_frame "Ann" "3333333333" book_today_tomorrow []) "Bob" H).
Defined.

(** ** [birthdays]: what the loop lists *)

Lemma birthdays_step_cases {S} (now : Calendar.datetime) (days : Z)
  (r : Record_) (upcoming : list (string * Calendar.datetime)) (st : S)
  (out : list string) :
  final_state (birthdays_step now days r upcoming st out) = st
  /\ (result (birthdays_step now days r upcoming st out) = Return upcoming
      \/ (exists e, listed_for now days r e
                    /\ result (birthdays_step now days r upcoming st out)
                       = Return (upcoming ++ [e])%list)
      \/ (result (birthdays_step now days r upcoming st out) = Raise AttributeError
          /\ ~ attributes_set r)).
Proof.
  split; [apply read_only_birthdays_step|].
  destruct r as [[nm] ps bd]. destruct bd as [[[b|]]|].
  - destruct nm as [n|].
    + set (r := mkRecord (mkField (Some n)) ps (Some (mkField (Some b)))).
      assert (Hr : named n b r) by (split; reflexivity).
      destruct (Calendar.strptime b) as [t|e] eqn:Ht.
      * destruct (occurrence now t) as [bd|e] eqn:Hocc.
        -- rewrite (birthdays_step_listed now days r n b t bd upcoming st out
                      Hr Ht Hocc).
           unfold result. cbn [fst].
           destruct (in_window now days bd) eqn:Hw; [|left; reflexivity].
           right. left. exists (n, bd). split; [|reflexivity].
           exists b, t. repeat split; assumption.
        -- rewrite (birthdays_step_skipped now days r n b t e upcoming st out
                      Hr Ht Hocc).
           left. reflexivity.
      * left. pose proof (strptime_raises_ValueError b e Ht) as ->.
        unfold r, birthdays_step, try_except, bind, getattr_value, lift, ret.
        cbn [birthday value name]. rewrite Ht. reflexivity.
    + assert (Hno : ~ attributes_set
                      (mkRecord (mkField None) ps (Some (mkField (Some b))))).
      { intros [H _]. apply H. reflexivity. }
      unfold birthdays_step, try_except, bind, getattr_value, lift, ret.
      cbn [birthday value name].
      destruct (Calendar.strptime b) as [t|e] eqn:Ht.
      * destruct (Calendar.replace_year t (Calendar.year now)) as [ty|e] eqn:E1.
        -- destruct (Calendar.lt ty now).
           ++ destruct (Calendar.replace_year ty (Calendar.year now + 1))
                as [bd|e] eqn:E2.
              ** destruct (_ && _); [right; right | left]; auto.
              ** pose proof (replace_year_raises _ _ _ E2) as ->.
                 right. right. auto.
           ++ destruct (_ && _); [right; right | left]; auto.
        -- pose proof (replace_year_raises _ _ _ E1) as ->. right. right. auto.
      * pose proof (strptime_raises_ValueError b e Ht) as ->. right. right. auto.
  - right. right. split; [reflexivity|]. intros [_ H]. apply H. reflexivity.
  - left. reflexivity.
Qed.

Lemma birthdays_for_each (now : Calendar.datetime) (days : Z) {S}
  (rs : list Record_) (acc : list (string * Calendar.datetime)) (st : S)
  (out : list string) :
  (forall l,
      result (for_each rs acc (birthdays_step now days) st out) = Return l ->
      exists added,
        l = (acc ++ added)%list
        /\ Forall (fun e => exists r, In r rs /\ listed_for now days r e) added)
  /\ (Forall attributes_set rs ->
      exists l, result (for_each rs acc (birthdays_step now days) st out) = Return l).
Proof.
  revert acc out. induction rs as [|r rs IH]; intros acc out.
  - split.
    + intros l [= <-]. exists []. rewrite app_nil_r. split; [reflexivity | constructor].
    + intros _. exists acc. reflexivity.
  - cbn [for_each]. unfold bind.
    destruct (birthdays_step_cases now days r acc st out) as [Hst Hres].
    destruct (birthdays_step now days r acc st out) as [[res st'] out'].
    unfold final_state, result in Hst, Hres. cbn [fst snd] in Hst, Hres. subst st'.
    destruct Hres as [-> | [(e & He & ->) | [-> Hno]]].
    + destruct (IH acc out') as [IH1 IH2]. split.
      * intros l Hl. destruct (IH1 l Hl) as (added & -> & Hadded).
        exists added. split; [reflexivity|].
        eapply Forall_impl; [|exact Hadded].
        intros e (r' & Hin & Hl'). exists r'. split; [right; exact Hin | exact Hl'].
      * intros Hall. apply IH2. inversion Hall; assumption.
    + destruct (IH (acc ++ [e])%list out') as [IH1 IH2]. split.
      * intros l Hl. destruct (IH1 l Hl) as (added & -> & Hadded).
        exists (e :: added). split; [rewrite <- app_assoc; reflexivity|].
        constructor.
        -- exists r. split; [left; reflexivity | exact He].
        -- eapply Forall_impl; [|exact Hadded].
           intros e' (r' & Hin & Hl'). exists r'. split; [right; exact Hin | exact Hl'].
      * intros Hall. apply IH2. inversion Hall; assumption.
    + split.
      * intros l Hl. discriminate.
      * intros Hall. inversion Hall; contradiction.
Qed.

(** X15.  Every entry of the list of [birthdays] comes from a record of
    the book that has this name and a birthday text [strptime] reads, is
    paired with the occurrence computed from it, and passed the test of the
    window: the query lists nothing else. *)
Theorem birthdays_lists_in_window (now : Calendar.datetime) (days : Z)
  (book : AddressBook) (out : list string)
  (l : list (string * Calendar.datetime)) :
  result (birthdays_loop now days book out) = Return l ->
  Forall (fun e => exists r, In r (Dict.values (data book))
                             /\ listed_for now days r e) l.
Proof.
  unfold birthdays_loop, bind, get. intros Hl.
  destruct (proj1 (birthdays_for_each now days (Dict.values (data book)) []
                     book out) l Hl) as (added & -> & Hadded).
  exact Hadded.
Qed.

Lemma birthdays_lists_in_window_witness :
  result (birthdays_loop just_after_midnight 0 book_today_tomorrow [])
  = Return [("Bob", midnight 2026 11 4)]
  /\ Forall (fun e => exists r, In r (Dict.values (data book_today_tomorrow))
                                /\ listed_for just_after_midnight 0 r e)
            [("Bob", midnight 2026 11 4)].
Proof.
  split; [reflexivity|].
  exact (birthdays_lists_in_window just_after_midnight 0 book_today_tomorrow []
           [("Bob", midnight 2026 11 4)] eq_refl).
Defined.

Lemma in_window_negative now days bd : days < 0 -> in_window now days bd = false.
Proof.
  intros Hneg. unfold in_window. cbv zeta.
  apply andb_false_iff.
  destruct (Z.leb_spec 0 (Calendar.days (Calendar.sub bd now)));
    [right; apply Z.leb_gt; lia | left; reflexivity].
Qed.

(** X16.  With a negative window [birthdays] lists no one, whatever the
    book and the clock. *)
Theorem birthdays_negative_window (now : Calendar.datetime) (days : Z)
  (book : AddressBook) (out : list string)
  (l : list (string * Calendar.datetime)) :
  days < 0 ->
  result (birthdays_loop now days book out) = Return l -> l = [].
Proof.
  intros Hneg. unfold birthdays_loop, bind, get. intros Hl.
  destruct (proj1 (birthdays_for_each now days (Dict.values (data book)) []
                     book out) l Hl) as (added & -> & Hadded).
  destruct added as [|e added]; [reflexivity|].
  inversion Hadded as [|? ? (r & _ & b & t & _ & _ & _ & Hw) _]; subst.
  rewrite (in_window_negative now days (snd e) Hneg) in Hw. discriminate.
Qed.

Lemma birthdays_negative_window_witness :
  -1 < 0
  /\ result (birthdays_loop just_after_midnight (-1) book_today_tomorrow [])
     = Return [].
Proof.
  assert (H : -1 < 0) by lia.
  split; [exact H|].
  assert (E : exists l,
             result (birthdays_loop just_after_midnight (-1) book_today_tomorrow [])
             = Return l) by (eexists; reflexivity).
  destruct E as [l E]. rewrite E. f_equal.
  exact (birthdays_negative_window just_after_midnight (-1) book_today_tomorrow []
           l H E).
Defined.

(** ** [birthdays]: the order of the lines *)

Lemma lex_opp (a b : list Z) : Calendar.lex b a = CompOpp (Calendar.lex a b).
Proof.
  revert b. induction a as [|x a IH]; intros [|y b]; simpl; try reflexivity.
  rewrite (Z.compare_antisym x y). destruct (x ?= y); simpl; auto.
Qed.

Lemma lex_trans_lt (a b c : list Z) :
  Calendar.lex a b = Lt -> Calendar.lex b c = Lt -> Calendar.lex a c = Lt.
Proof.
  revert b c. induction a as [|x a IH]; intros [|y b] [|z c]; simpl;
    try discriminate; try reflexivity.
  destruct (Z.compare_spec x y), (Z.compare_spec y z); try discriminate; intros H1 H2.
  - subst. rewrite Z.compare_refl. eapply IH; eassumption.
  - subst. destruct (Z.compare_spec y z); [lia | reflexivity | lia].
  - subst. destruct (Z.compare_spec x z); [lia | reflexivity | lia].
  - destruct (Z.compare_spec x z); [lia | reflexivity | lia].
Qed.

Lemma lex_eq_l (a b c : list Z) :
  Calendar.lex a b = Eq -> Calendar.lex a c = Calendar.lex b c.
Proof.
  revert b c. induction a as [|x a IH]; intros [|y b] c; simpl; try discriminate;
    try reflexivity.
  destruct (Z.compare_spec x y); try discriminate. subst. intros H.
  destruct c as [|z c]; [reflexivity|]. destruct (y ?= z); auto.
Qed.

Lemma lt_asym a b : Calendar.lt a b = true -> Calendar.lt b a = false.
Proof.
  unfold Calendar.lt, Calendar.cmp. rewrite (lex_opp (Calendar.fields a)).
  destruct (Calendar.lex _ _); simpl; congruence.
Qed.

Lemma lt_trans a b c :
  Calendar.lt a b = true -> Calendar.lt b c = true -> Calendar.lt a c = true.
Proof.
  unfold Calendar.lt, Calendar.cmp.
  destruct (Calendar.lex (Calendar.fields a) (Calendar.fields b)) eqn:E1; try discriminate.
  destruct (Calendar.lex (Calendar.fields b) (Calendar.fields c)) eqn:E2; try discriminate.
  rewrite (lex_trans_lt _ _ _ E1 E2). reflexivity.
Qed.

Lemma insert_by_date_perm x l : Permutation (x :: l) (insert_by_date x l).
Proof.
  induction l as [|y l IH]; simpl; [reflexivity|].
  destruct (Calendar.lt (snd x) (snd y)); [reflexivity|].
  rewrite perm_swap. constructor. exact IH.
Qed.

Lemma insert_by_date_sorted x l :
  StronglySorted not_later l -> StronglySorted not_later (insert_by_date x l).
Proof.
  induction l as [|y l IH]; simpl; intros Hs.
  - constructor; constructor.
  - inversion Hs as [|? ? Hs' Hall]; subst.
    destruct (Calendar.lt (snd x) (snd y)) eqn:E.
    + constructor; [exact Hs|]. constructor; [apply lt_asym, E|].
      eapply Forall_impl; [|exact Hall]. unfold not_later. intros z Hz.
      destruct (Calendar.lt (snd z) (snd x)) eqn:Ezx; [|reflexivity].
      rewrite (lt_trans _ _ _ Ezx E) in Hz. discriminate.
    + constructor; [apply IH, Hs'|].
      apply (Permutation_Forall (insert_by_date_perm x l)).
      constructor; [exact E | exact Hall].
Qed.

Lemma cmp_eq_l a b c :
  Calendar.cmp a b = Eq -> Calendar.cmp a c = Calendar.cmp b c.
Proof. unfold Calendar.cmp. apply lex_eq_l. Qed.

Lemma cmp_opp a b : Calendar.cmp b a = CompOpp (Calendar.cmp a b).
Proof. unfold Calendar.cmp. apply lex_opp. Qed.

Lemma on_date_nil d l :
  Forall (fun e => Calendar.cmp (snd e) d <> Eq) l -> on_date d l = [].
Proof.
  induction 1 as [|e l He _ IH]; [reflexivity|].
  unfold on_date. cbn [filter]. fold (on_date d l). rewrite IH.
  destruct (Calendar.cmp (snd e) d); [congruence | reflexivity | reflexivity].
Qed.

Lemma on_date_cons d e l :
  on_date d (e :: l) = (on_date d [e] ++ on_date d l)%list.
Proof.
  unfold on_date. cbn [filter].
  destruct (Calendar.cmp (snd e) d); reflexivity.
Qed.

Lemma insert_by_date_on_date d x l :
  StronglySorted not_later l ->
  on_date d (insert_by_date x l) = (on_date d l ++ on_date d [x])%list.
Proof.
  induction l as [|y l IH]; intros Hs; [reflexivity|].
  inversion Hs as [|? ? Hs' Hall]; subst. cbn [insert_by_date].
  destruct (Calendar.lt (snd x) (snd y)) eqn:E.
  - rewrite (on_date_cons d x (y :: l)).
    destruct (Calendar.cmp (snd x) d) eqn:Ex.
    + rewrite (on_date_nil d (y :: l)); [rewrite app_nil_r; reflexivity|].
      clear IH.
      assert (Hxy : Calendar.cmp (snd x) (snd y) = Lt).
      { unfold Calendar.lt in E. destruct (Calendar.cmp (snd x) (snd y));
          [discriminate | reflexivity | discriminate]. }
      assert (Hdy : Calendar.cmp d (snd y) = Lt).
      { rewrite <- (cmp_eq_l _ _ (snd y) Ex). exact Hxy. }
      constructor.
      * intros Hy. rewrite (cmp_opp (snd y) d), Hy in Hdy. discriminate.
      * eapply Forall_impl; [|exact Hall]. unfold not_later, Calendar.lt.
        intros z Hz Hzd. rewrite (cmp_eq_l _ _ (snd y) Hzd), Hdy in Hz.
        discriminate.
    + assert (Hx : on_date d [x] = []).
      { unfold on_date. cbn [filter]. rewrite Ex. reflexivity. }
      rewrite Hx, app_nil_r. reflexivity.
    + assert (Hx : on_date d [x] = []).
      { unfold on_date. cbn [filter]. rewrite Ex. reflexivity. }
      rewrite Hx, app_nil_r. reflexivity.
  - rewrite (on_date_cons d y (insert_by_date x l)), (IH Hs').
    rewrite (on_date_cons d y l), app_assoc. reflexivity.
Qed.

Lemma sort_fold (l acc : list (string * Calendar.datetime)) :
  StronglySorted not_later acc ->
  let sorted := fold_left (fun sorted x => insert_by_date x sorted) l acc in
  StronglySorted not_later sorted
  /\ Permutation (acc ++ l) sorted
  /\ (forall d, on_date d sorted = (on_date d acc ++ on_date d l)%list).
Proof.
  revert acc. induction l as [|x l IH]; intros acc Hacc; cbn [fold_left].
  - split; [exact Hacc|]. split; [rewrite app_nil_r; reflexivity|].
    intros d. rewrite app_nil_r. reflexivity.
  - destruct (IH (insert_by_date x acc) (insert_by_date_sorted x acc Hacc))
      as (Hs & Hp & Hd).
    split; [exact Hs|]. split.
    + rewrite <- Hp. rewrite <- (insert_by_date_perm x acc).
      rewrite <- Permutation_middle. reflexivity.
    + intros d. rewrite Hd, (insert_by_date_on_date d x acc Hacc).
      rewrite (on_date_cons d x l), app_assoc. reflexivity.
Qed.

Lemma sort_by_date_stable (l : list (string * Calendar.datetime)) :
  StronglySorted not_later (sort_by_date l)
  /\ Permutation l (sort_by_date l)
  /\ (forall d, on_date d (sort_by_date l) = on_date d l).
Proof.
  destruct (sort_fold l [] (SSorted_nil _)) as (Hs & Hp & Hd).
  split; [exact Hs|]. split; [exact Hp|]. exact Hd.
Qed.

Lemma print_lines (lines : list (string * Calendar.datetime)) (book : AddressBook)
  (out : list string) :
  for_each lines tt
    (fun entry _ =>
       print (fst entry ++ "'s birthday is on " ++ Calendar.strftime (snd entry)))
    book out
  = (Return tt, book, (out ++ map birthday_line lines)%list).
Proof.
  revert out. induction lines as [|e lines IH]; intros out; cbn [for_each map].
  - rewrite app_nil_r. reflexivity.
  - unfold bind, print. rewrite IH, <- app_assoc. reflexivity.
Qed.

Lemma birthdays_step_reports {S} (now : Calendar.datetime) (days : Z)
  (r : Record_) (upcoming : list (string * Calendar.datetime)) (st : S)
  (out : list string) :
  attributes_set r ->
  exists upcoming',
    birthdays_step now days r upcoming st out
    = (Return upcoming', st, (out ++ error_report now r)%list).
Proof.
  destruct r as [[nm] ps bd]. intros [Hn Hb]. cbn [name birthday value] in Hn, Hb.
  destruct nm as [n|]; [clear Hn | contradiction Hn; reflexivity].
  destruct bd as [[[b|]]|].
  - set (r := mkRecord (mkField (Some n)) ps (Some (mkField (Some b)))).
    assert (Hr : named n b r) by (split; reflexivity).
    unfold error_report. cbn [name birthday value r].
    destruct (Calendar.strptime b) as [t|e] eqn:Ht.
    + destruct (occurrence now t) as [bd|e] eqn:Hocc.
      * rewrite (birthdays_step_listed now days r n b t bd upcoming st out
                   Hr Ht Hocc), app_nil_r.
        eexists. reflexivity.
      * rewrite (birthdays_step_skipped now days r n b t e upcoming st out
                   Hr Ht Hocc).
        eexists. reflexivity.
    + pose proof (strptime_raises_ValueError b e Ht) as ->.
      exists upcoming.
      unfold r, birthdays_step, try_except, bind, getattr_value, lift, ret.
      cbn [birthday value name]. rewrite Ht. reflexivity.
  - contradiction Hb. reflexivity.
  - exists upcoming. unfold error_report. cbn [name birthday value].
    rewrite app_nil_r. reflexivity.
Qed.

Lemma birthdays_for_each_reports {S} (now : Calendar.datetime) (days : Z)
  (rs : list Record_) (acc : list (string * Calendar.datetime)) (st : S)
  (out : list string) :
  Forall attributes_set rs ->
  exists l,
    for_each rs acc (birthdays_step now days) st out
    = (Return l, st, (out ++ flat_map (error_report now) rs)%list).
Proof.
  intros Hall. revert acc out.
  induction Hall as [|r rs Hr _ IH]; intros acc out.
  - exists acc. cbn [for_each flat_map]. rewrite app_nil_r. reflexivity.
  - cbn [for_each flat_map]. unfold bind.
    destruct (birthdays_step_reports now days r acc st out Hr) as [acc' ->].
    destruct (IH acc' (out ++ error_report now r)%list) as [l ->].
    exists l. rewrite <- app_assoc. reflexivity.
Qed.

(** X17.  On a book whose records all have a name value, and a text in
    their birthday when they have one, [birthdays] ends normally and leaves
    the book as it is: the loop prints, in the order of the book, the error
    line of each contact whose birthday text cannot be read or has no
    occurrence in the year at hand (29 February), and goes on with the
    next contact; the lines of the listed birthdays follow. *)
Theorem birthdays_never_raises (now : Calendar.datetime) (days : Z)
  (book : AddressBook) (out : list string) :
  Forall attributes_set (Dict.values (data book)) ->
  (exists l,
      birthdays_loop now days book out
      = (Return l, book,
         (out ++ flat_map (error_report now) (Dict.values (data book)))%list))
  /\ result (birthdays now days book out) = Return tt
  /\ exists lines,
       output (birthdays now days book out)
       = ((out ++ flat_map (error_report now) (Dict.values (data book)))
          ++ lines)%list.
Proof.
  intros Hall.
  destruct (birthdays_for_each_reports now days (Dict.values (data book)) []
              book out Hall) as [l Hl].
  assert (Hloop : birthdays_loop now days book out
                  = (Return l, book,
                     (out ++ flat_map (error_report now)
                                      (Dict.values (data book)))%list)).
  { unfold birthdays_loop, bind, get. exact Hl. }
  split; [exists l; exact Hloop|].
  unfold birthdays, bind. rewrite Hloop, print_lines.
  split; [reflexivity|]. eexists. reflexivity.
Qed.

Lemma birthdays_never_raises_witness :
  Forall attributes_set
    (Dict.values
       (data (mkAddressBook [contact "Ann" "29.02.2000";
                             contact "Bob" "04.11.1990"])))
  /\ birthdays_loop noon 7
       (mkAddressBook [contact "Ann" "29.02.2000"; contact "Bob" "04.11.1990"])
       []
     = (Return [("Bob", midnight 2026 11 4)],
        mkAddressBook [contact "Ann" "29.02.2000"; contact "Bob" "04.11.1990"],
        ["Error processing birthday for Ann. Invalid date format."])
  /\ result (birthdays noon 7
               (mkAddressBook [contact "Ann" "29.02.2000";
                               contact "Bob" "04.11.1990"]) [])
     = Return tt.
Proof.
  assert (H : Forall attributes_set
                (Dict.values
                   (data (mkAddressBook [contact "Ann" "29.02.2000";
                                         contact "Bob" "04.11.1990"])))).
  { constructor; [split; discriminate|].
    constructor; [split; discriminate | constructor]. }
  split; [exact H|]. split; [reflexivity|].
  exact (proj1 (proj2 (birthdays_never_raises noon 7
                         (mkAddressBook [contact "Ann" "29.02.2000";
                                         contact "Bob" "04.11.1990"]) [] H))).
Defined.

(** X18.  With the clock in the year 1000 or a later one, so that the
    year of every occurrence is printed on four digits, [birthdays] prints
    one line for each entry of its list, after the lines of the loop, in
    ascending order of the occurrences: the lines are those of a
    rearrangement of the list in which no entry stands before an earlier
    one and the entries of one date keep the order they had. *)
Theorem birthdays_prints_sorted (now : Calendar.datetime) (days : Z)
  (book book' : AddressBook) (out out' : list string)
  (l : list (string * Calendar.datetime)) :
  1000 <= Calendar.year now ->
  birthdays_loop now days book out = (Return l, book', out') ->
  birthdays now days book out
  = (Return tt, book', (out' ++ map birthday_line (sort_by_date l))%list)
  /\ StronglySorted not_later (sort_by_date l)
  /\ Permutation l (sort_by_date l)
  /\ (forall d, on_date d (sort_by_date l) = on_date d l).
Proof.
  intros _ Hl. split; [|apply sort_by_date_stable].
  unfold birthdays, bind. rewrite Hl. apply print_lines.
Qed.

Lemma birthdays_prints_sorted_witness :
  1000 <= Calendar.year noon
  /\ birthdays_loop noon 7
       (mkAddressBook [contact "Bob" "05.11.1990"; contact "Ann" "04.11.2000"]) []
     = (Return [("Bob", midnight 2026 11 5); ("Ann", midnight 2026 11 4)],
        mkAddressBook [contact "Bob" "05.11.1990"; contact "Ann" "04.11.2000"], [])
  /\ birthdays noon 7
       (mkAddressBook [contact "Bob" "05.11.1990"; contact "Ann" "04.11.2000"]) []
     = (Return tt,
        mkAddressBook [contact "Bob" "05.11.1990"; contact "Ann" "04.11.2000"],
        ["Ann's birthday is on 2026-11-04"; "Bob's birthday is on 2026-11-05"]).
Proof.
  assert (Hy : 1000 <= Calendar.year noon) by (simpl; lia).
  split; [exact Hy|]. split; [reflexivity|].
  exact (proj1 (birthdays_prints_sorted noon 7
                  (mkAddressBook [contact "Bob" "05.11.1990";
                                  contact "Ann" "04.11.2000"])
                  (mkAddressBook [contact "Bob" "05.11.1990";
                                  contact "Ann" "04.11.2000"])
                  [] []
                  [("Bob", midnight 2026 11 5); ("Ann", midnight 2026 11 4)]
                  Hy eq_refl)).
Defined.

(** ** The pattern of [is_valid_format] *)

Lemma run_seq (r1 r2 : Re.regex) (k : nat) (s : string) :
  Re.run (Re.Seq r1 r2) k s
  = flat_map (fun p => Re.run r2 (fst p) (snd p)) (Re.run r1 k s).
Proof. reflexivity. Qed.

Lemma run_caret (s : string) : Re.run Re.Caret 0 s = [(0%nat, s)].
Proof. reflexivity. Qed.

Lemma run_lit (c a : ascii) (k : nat) (s : string) :
  Re.run (Re.Lit c) k (String a s) = if Ascii.eqb c a then [(S k, s)] else [].
Proof. reflexivity. Qed.

Lemma run_dollar (k : nat) (s : string) :
  Re.run Re.Dollar k s = if Re.at_end s then [(k, s)] else [].
Proof. reflexivity. Qed.

Lemma birthday_pattern_unfold (s : string) :
  Re.matches birthday_pattern s =
  match strip_decimals 2 s with
  | Some (String p1 r1) =>
      Ascii.eqb "." p1 &&
      match strip_decimals 2 r1 with
      | Some (String p2 r2) =>
          Ascii.eqb "." p2 &&
          match strip_decimals 4 r2 with
          | Some rest => Re.at_end rest
          | None => false
          end
      | _ => false
      end
  | _ => false
  end.
Proof.
  unfold Re.matches, Re.re_match, birthday_pattern. cbn [Re.seq].
  rewrite run_seq, run_caret. cbn [flat_map fst snd].
  rewrite app_nil_r, run_seq, run_times_digit.
  destruct (strip_decimals 2 s) as [[|p1 r1]|]; try reflexivity.
  cbn [flat_map fst snd]. rewrite app_nil_r, run_seq, run_lit.
  destruct (Ascii.eqb "." p1); [|reflexivity].
  cbn [flat_map fst snd andb]. rewrite app_nil_r, run_seq, run_times_digit.
  destruct (strip_decimals 2 r1) as [[|p2 r2]|]; try reflexivity.
  cbn [flat_map fst snd]. rewrite app_nil_r, run_seq, run_lit.
  destruct (Ascii.eqb "." p2); [|reflexivity].
  cbn [flat_map fst snd andb]. rewrite app_nil_r, run_seq, run_times_digit.
  destruct (strip_decimals 4 r2) as [rest|]; [|reflexivity].
  cbn [flat_map fst snd]. rewrite app_nil_r, run_dollar.
  destruct (Re.at_end rest); reflexivity.
Qed.

(** X19.  The pattern of [is_valid_format] matches exactly the texts made
    of two decimal digits, a dot, two decimal digits, a dot and four decimal
    digits, and those texts followed by one line feed. *)
Theorem birthday_pattern_spec (s : string) :
  Re.matches birthday_pattern s = true <->
  exists a b c e y1 y2 y3 y4,
    Str.all Str.is_decimal
      (String a (String b (String c (String e (String y1 (String y2
        (String y3 (String y4 "")))))))) = true
    /\ (s = birthday_shape a b c e y1 y2 y3 y4
        \/ s = birthday_shape a b c e y1 y2 y3 y4 ++ LF).
Proof.
  rewrite birthday_pattern_unfold. split.
  - destruct s as [|a [|b [|p1 [|c [|e [|p2 [|y1 [|y2 [|y3 [|y4 rest]]]]]]]]]];
      cbn [strip_decimals];
      repeat match goal with
        | |- context [Str.is_decimal ?c] => destruct (Str.is_decimal c) eqn:?
        | |- context [Ascii.eqb "." ?p] => destruct (Ascii.eqb_spec "." p); [subst|]
        end; cbn [andb]; try discriminate.
    intros H. apply at_end_spec in H.
    exists a, b, c, e, y1, y2, y3, y4. split.
    + cbn [Str.all]. repeat match goal with H : _ = true |- _ => rewrite H end.
      reflexivity.
    + destruct H as [-> | ->]; [left | right]; reflexivity.
  - intros (a & b & c & e & y1 & y2 & y3 & y4 & Hall & Hs).
    cbn [Str.all] in Hall. rewrite !andb_true_iff in Hall.
    destruct Hall as (Ha & Hb & Hc & He & H1 & H2 & H3 & H4 & _).
    destruct Hs as [-> | ->]; unfold birthday_shape; cbn [strip_decimals String.append];
      rewrite Ha, Hb; cbn [strip_decimals andb Ascii.eqb Bool.eqb];
      rewrite Hc, He; cbn [strip_decimals andb Ascii.eqb Bool.eqb]; rewrite H1, H2, H3, H4; reflexivity.
Qed.

Lemma birthday_pattern_spec_witness :
  Re.matches birthday_pattern ("99.99.0000" ++ LF) = true
  /\ exists a b c e y1 y2 y3 y4,
       Str.all Str.is_decimal
         (String a (String b (String c (String e (String y1 (String y2
           (String y3 (String y4 "")))))))) = true
       /\ ("99.99.0000" ++ LF = birthday_shape a b c e y1 y2 y3 y4
           \/ "99.99.0000" ++ LF = birthday_shape a b c e y1 y2 y3 y4 ++ LF).
Proof.
  split; [reflexivity|].
  exact (proj1 (birthday_pattern_spec ("99.99.0000" ++ LF)) eq_refl).
Defined.

(** ** The command loop *)

Lemma no_space_app (s t : string) :
  no_space (s ++ t) = no_space s && no_space t.
Proof.
  unfold no_space. induction s as [|c s IH]; simpl; [reflexivity|].
  rewrite IH, andb_assoc. reflexivity.
Qed.

Lemma split_from_words (s tok : string) :
  no_space tok = true ->
  Forall (fun w => w <> EmptyString /\ no_space w = true) (Text.split_from tok s).
Proof.
  revert tok. induction s as [|c s IH]; intros tok Htok; simpl.
  - destruct tok; [constructor|]. constructor; [|constructor].
    split; [discriminate | exact Htok].
  - destruct (Text.isspace c) eqn:Ec.
    + destruct tok.
      * apply IH. reflexivity.
      * constructor; [split; [discriminate | exact Htok]|]. apply IH. reflexivity.
    + apply IH. rewrite no_space_app, Htok. unfold no_space. simpl.
      rewrite Ec. reflexivity.
Qed.

Lemma split_words (s : string) :
  Forall (fun w => w <> EmptyString /\ no_space w = true) (Text.split s).
Proof. apply split_from_words. reflexivity. Qed.

Lemma split_blank (s : string) :
  Str.all Text.isspace s = true -> Text.split s = [].
Proof.
  unfold Text.split. induction s as [|c s IH]; simpl; [reflexivity|].
  rewrite andb_true_iff. intros [Hc Hs]. rewrite Hc. apply IH, Hs.
Qed.

Lemma rstrip_no_space (s : string) : no_space s = true -> Text.rstrip s = s.
Proof.
  unfold no_space. induction s as [|c s IH]; simpl; [reflexivity|].
  rewrite andb_true_iff, negb_true_iff. intros [Hc Hs].
  rewrite (IH Hs), Hc. destruct s; reflexivity.
Qed.

Lemma strip_no_space (s : string) : no_space s = true -> Text.strip s = s.
Proof.
  intros H. unfold Text.strip.
  assert (Hl : Text.lstrip s = s).
  { destruct s as [|c s]; [reflexivity|]. unfold no_space in H. simpl in H.
    apply andb_true_iff in H. destruct H as [Hc _].
    apply negb_true_iff in Hc. simpl. rewrite Hc. reflexivity. }
  rewrite Hl. apply rstrip_no_space, H.
Qed.

Lemma parse_input_words {S} (line c : string) (args : list string) (st : S)
  (out : list string) :
  Text.split line = c :: args ->
  parse_input line st out = (Return (Text.lower c, args), st, out).
Proof.
  intros H. unfold parse_input. rewrite H.
  pose proof (split_words line) as Hw. rewrite H in Hw.
  inversion Hw as [|? ? [_ Hc] _]; subst.
  rewrite (strip_no_space c Hc). reflexivity.
Qed.

Lemma add_phones_accepted (ps : list string) (r : Record_) (out : list string) :
  forallb (Re.matches phone_pattern) ps = true ->
  for_each ps tt (fun phone_number _ => add_phone phone_number) r out
  = (Return tt, with_phones r (phones r ++ map phone_of ps), out).
Proof.
  revert r. induction ps as [|p ps IH]; intros r; cbn [forallb for_each map].
  - intros _. rewrite app_nil_r. destruct r; reflexivity.
  - rewrite andb_true_iff. intros [Hp Hps]. unfold bind.
    rewrite (add_phone_accepted r p out Hp), (IH _ Hps).
    unfold with_phones. cbn [name phones birthday]. rewrite <- app_assoc. reflexivity.
Qed.

Lemma read_only_strs {S} (ps : list Field) : read_only (@strs S ps).
Proof.
  unfold strs. apply read_only_for_each. intros p done.
  apply read_only_bind; [apply read_only_getattr_value|].
  intros s. apply read_only_ret.
Qed.

Lemma read_only_Record_str {S} (r : Record_) : read_only (@Record__str__ S r).
Proof.
  unfold Record__str__. apply read_only_bind; [apply read_only_strs|].
  intros ps. apply read_only_bind.
  - destruct (birthday r).
    + apply read_only_bind; [apply read_only_getattr_value|].
      intros s. apply read_only_ret.
    + apply read_only_ret.
  - intros b. apply read_only_bind; [apply read_only_getattr_value|].
    intros n. apply read_only_ret.
Qed.

Lemma read_only_birthdays (now : Calendar.datetime) (days : Z) :
  read_only (birthdays now days).
Proof.
  unfold birthdays. apply read_only_bind; [apply read_only_birthdays_loop|].
  intros l. apply read_only_for_each. intros e []. apply read_only_print.
Qed.

Lemma Record_str_outcome {S} (r : Record_) (st : S) (out : list string) :
  (exists s, Record__str__ r st out = (Return s, st, out))
  \/ Record__str__ r st out = (Raise AttributeError, st, out).
Proof.
  destruct (strs_outcome (phones r) st out) as [[l Hl]|Hl].
  - unfold Record__str__, bind. rewrite Hl.
    unfold getattr_value, Field__str__, getattr_value, ret.
    destruct (birthday r) as [[[t|]]|]; cbn [value];
      try (right; reflexivity);
      destruct (value (name r)); [left; eexists | right | left; eexists | right];
      reflexivity.
  - right. unfold Record__str__, bind. rewrite Hl. reflexivity.
Qed.

Lemma all_loop_raises (rs : list Record_) (book : AddressBook) (out : list string) :
  (exists r, In r rs /\ (value (name r) = None \/ In no_attributes (phones r)
                         \/ birthday r = Some no_attributes)) ->
  result (for_each rs tt (fun record _ => s <- Record__str__ record ;; print s)
            book out)
  = Raise AttributeError.
Proof.
  revert out. induction rs as [|r rs IH]; intros out (r0 & Hin & Hbad);
    [destruct Hin|].
  cbn [for_each]. unfold bind at 1. unfold bind at 1.
  destruct (Record_str_outcome r book out) as [[s Hs]|Hs].
  - rewrite Hs. unfold print at 1. destruct Hin as [<-|Hin].
    + rewrite (Record_str_raises r book out Hbad) in Hs. discriminate.
    + apply IH. exists r0. split; assumption.
  - rewrite Hs. reflexivity.
Qed.

Lemma in_values_set {V} (k : string) (v : V) (d : list (string * V)) :
  In v (Dict.values (Dict.set k v d)).
Proof.
  unfold Dict.values. induction d as [|[k0 v0] d IH]; simpl; [left; reflexivity|].
  destruct (String.eqb k0 k); simpl; [left; reflexivity | right; exact IH].
Qed.

Lemma Forall_set {V} (P : string * V -> Prop) (k : string) (v : V)
  (d : list (string * V)) :
  Forall P d -> P (k, v) -> Forall P (Dict.set k v d).
Proof.
  intros Hd Hkv. induction Hd as [|[k0 v0] d H0 Hd IH]; simpl.
  - constructor; [exact Hkv | constructor].
  - destruct (String.eqb k0 k); constructor; assumption.
Qed.

Lemma Forall_del {V} (P : string * V -> Prop) (k : string)
  (d : list (string * V)) :
  Forall P d -> Forall P (Dict.del k d).
Proof.
  intros Hd. induction Hd as [|[k0 v0] d H0 Hd IH]; simpl; [constructor|].
  destruct (String.eqb k0 k); [exact Hd | constructor; assumption].
Qed.

Lemma get_in {V} (k : string) (v : V) (d : list (string * V)) :
  Dict.get k d = Some v -> In (k, v) d.
Proof.
  induction d as [|[k0 v0] d IH]; simpl; [discriminate|].
  destruct (String.eqb_spec k0 k) as [->|Hne].
  - intros [= ->]. left. reflexivity.
  - intros H. right. apply IH, H.
Qed.

Lemma book_ok_set (book : AddressBook) (k : string) (r : Record_) :
  book_ok book -> entry_ok (k, r) ->
  book_ok (mkAddressBook (Dict.set k r (data book))).
Proof.
  intros [Hnd Hall] Hr. split; cbn [data].
  - apply NoDup_keys_set, Hnd.
  - apply Forall_set; assumption.
Qed.

Lemma book_ok_get (book : AddressBook) (k : string) (r : Record_) :
  book_ok book -> Dict.get k (data book) = Some r -> entry_ok (k, r).
Proof.
  intros [_ Hall] Hget. apply (proj1 (Forall_forall _ _) Hall), get_in, Hget.
Qed.

Lemma add_birthday_final (now : Calendar.datetime) (n v : string)
  (book : AddressBook) (out : list string) :
  final_state (add_birthday now n v book out) = book
  \/ exists r,
       Dict.get n (data book) = Some r
       /\ final_state (add_birthday now n v book out)
          = mkAddressBook (Dict.set n (with_birthday r v) (data book)).
Proof.
  destruct (Re.matches birthday_pattern v) eqn:Hf;
    [|left; rewrite (add_birthday_bad_format now n v book out Hf); reflexivity].
  destruct (Calendar.strptime v) as [t|e] eqn:Ht.
  - destruct (Calendar.le t now) eqn:Hle.
    + destruct (Dict.get n (data book)) as [r|] eqn:Hget.
      * right. exists r. split; [reflexivity|].
        rewrite (add_birthday_sets now t n v r book out Hf Ht Hle Hget). reflexivity.
      * left. rewrite (add_birthday_not_found now t n v book out Hf Ht Hle);
          [reflexivity|]. unfold Dict.mem. rewrite Hget. reflexivity.
    + left. rewrite (add_birthday_bad_date now n v book out Hf); [reflexivity|].
      rewrite (is_valid_date_parsed now t v book out Ht), Hle. reflexivity.
  - left. rewrite (add_birthday_bad_date now n v book out Hf); [reflexivity|].
    apply (is_valid_date_unparsed now v e book out Ht).
Qed.

Lemma book_ok_attributes (book : AddressBook) :
  book_ok book -> Forall attributes_set (Dict.values (data book)).
Proof.
  intros [_ Hall]. unfold Dict.values. apply Forall_map.
  eapply Forall_impl; [|exact Hall].
  intros [k r] [Hn Hb]. cbn [fst snd] in *.
  split; [rewrite Hn; discriminate | exact Hb].
Qed.

Ltac closed_tests :=
  repeat match goal with
    | |- context [Text.mem ?a ?l] =>
        let v := eval vm_compute in (Text.mem a l) in change (Text.mem a l) with v
    | |- context [String.eqb ?a ?b] =>
        let v := eval vm_compute in (String.eqb a b) in
        change (String.eqb a b) with v
    end;
  cbv iota.

(** The body of the loop on a line whose first word, in lower case, is
    [command]. *)
Ltac dispatch Hline Hcommand :=
  unfold main_body; unfold bind at 1;
  rewrite (parse_input_words _ _ _ _ _ Hline); cbn [fst snd];
  rewrite Hcommand; closed_tests.

Section MainFacts.
Variable int_of_str : string -> outcome Z.

(** X20.  A line with no word, empty or made of white space, ends the
    iteration with the [ValueError] of the unpacking in [parse_input]:
    nothing is printed, the book is as it was, and no handler of [main]
    stands between the exception and the end of the program. *)
Theorem main_body_blank_line (now : Calendar.datetime) (line : string)
  (book : AddressBook) (out : list string) :
  Str.all Text.isspace line = true ->
  main_body int_of_str now line book out = (Raise ValueError, book, out).
Proof.
  intros H. unfold main_body, bind, parse_input.
  rewrite (split_blank line H). reflexivity.
Qed.


Lemma unknown_command_run (now : Calendar.datetime) (line c : string)
  (args : list string) (book : AddressBook) (out : list string) :
  Text.split line = c :: args ->
  Text.mem (Text.lower c) commands = false ->
  main_body int_of_str now line book out
  = (Return Continue, book, (out ++ ["Invalid command."])%list).
Proof.
  intros Hline Hc. unfold main_body. unfold bind at 1.
  rewrite (parse_input_words _ _ _ _ _ Hline). cbn [fst snd].
  unfold Text.mem, commands in Hc. cbn [existsb] in Hc.
  repeat (apply orb_false_iff in Hc; destruct Hc as [? Hc]).
  unfold Text.mem. cbn [existsb].
  repeat match goal with H : String.eqb _ _ = false |- _ => rewrite H; clear H end.
  reflexivity.
Qed.

(** X22.  A first word that is none of the eleven command names, in lower
    case: the iteration prints [Invalid command.], leaves the book as it is
    and goes on to the next line. *)
Theorem main_body_unknown_command (now : Calendar.datetime) (line c : string)
  (args : list string) (book : AddressBook) (out : list string) :
  Text.split line = c :: args ->
  Text.mem (Text.lower c) commands = false ->
  main_body int_of_str now line book out
  = (Return Continue, book, (out ++ ["Invalid command."])%list).
Proof. intros Hline Hc. apply (unknown_command_run now line c args); assumption. Qed.

Lemma add_run (now : Calendar.datetime) (line c n p : string)
  (ps : list string) (book : AddressBook) (out : list string) :
  Text.split line = c :: n :: p :: ps ->
  Text.lower c = "add" ->
  forallb Phone_accepts (p :: ps) = true ->
  main_body int_of_str now line book out
  = (Return Continue,
     mkAddressBook
       (Dict.set n (mkRecord (phone_of n) (map phone_of (p :: ps)) None)
                 (data book)),
     (out ++ [("Contact '" ++ n ++ "' added successfully.")%string])%list).
Proof.
  intros Hline Hc Hps.
  assert (Hn : n <> "").
  { pose proof (split_words line) as Hw. rewrite Hline in Hw.
    inversion Hw as [|? ? _ Hw']; subst. inversion Hw' as [|? ? [H _] _]; subst.
    exact H. }
  dispatch Hline Hc.
  change (forallb (Re.matches phone_pattern) (p :: ps))
    with (forallb Phone_accepts (p :: ps)).
  rewrite Hps. cbn [negb]. unfold bind at 1. unfold Record__init__ at 1.
  unfold bind at 1. rewrite (Name_nonempty n book out Hn). unfold ret at 1.
  unfold bind at 1. unfold call_on.
  rewrite (add_phones_accepted (p :: ps) _ out Hps). cbn [snd].
  unfold bind at 1. unfold add_record, bind at 1, getattr_value.
  cbn [with_phones name value phones birthday app].
  reflexivity.
Qed.

(** X23.  [add] with a name and one or more numbers that [Phone] accepts
    files under the name a new record with exactly these numbers, in the
    order typed, and no birthday: a record that was under the name, with its
    phones and its birthday, is replaced; the other contacts are as they
    were. *)
Theorem main_body_add (now : Calendar.datetime) (line c n p : string)
  (ps : list string) (book : AddressBook) (out : list string) :
  Text.split line = c :: n :: p :: ps ->
  Text.lower c = "add" ->
  forallb Phone_accepts (p :: ps) = true ->
  main_body int_of_str now line book out
  = (Return Continue,
     mkAddressBook
       (Dict.set n (mkRecord (phone_of n) (map phone_of (p :: ps)) None)
                 (data book)),
     (out ++ [("Contact '" ++ n ++ "' added successfully.")%string])%list)
  /\ forall k, k <> n ->
       Dict.get k (data (final_state (main_body int_of_str now line book out)))
       = Dict.get k (data book).
Proof.
  intros Hline Hc Hps.
  rewrite (add_run now line c n p ps book out Hline Hc Hps).
  split; [reflexivity|]. intros k Hk. apply get_set_other, Hk.
Qed.

Lemma add_refused_run (now : Calendar.datetime) (line c : string)
  (args : list string) (book : AddressBook) (out : list string) :
  Text.split line = c :: args ->
  Text.lower c = "add" ->
  (2 <= length args)%nat ->
  forallb Phone_accepts (tl args) = false ->
  main_body int_of_str now line book out
  = (Return Continue, book, (out ++ ["Phone number must be 10 digits."])%list).
Proof.
  intros Hline Hc Hlen Hps. dispatch Hline Hc.
  destruct args as [|n [|p ps]]; [simpl in Hlen; lia | simpl in Hlen; lia |].
  cbn [tl] in Hps.
  change (forallb (Re.matches phone_pattern) (p :: ps))
    with (forallb Phone_accepts (p :: ps)).
  rewrite Hps. reflexivity.
Qed.

(** X24.  [add] with a name and numbers of which one is refused by the
    pattern of [Phone]: the numbers are all checked before a record is made,
    the iteration prints that a phone number must be 10 digits, and the book
    is as it was; no number of the line is added. *)
Theorem main_body_add_refused (now : Calendar.datetime) (line c : string)
  (args : list string) (book : AddressBook) (out : list string) :
  Text.split line = c :: args ->
  Text.lower c = "add" ->
  (2 <= length args)%nat ->
  forallb Phone_accepts (tl args) = false ->
  main_body int_of_str now line book out
  = (Return Continue, book, (out ++ ["Phone number must be 10 digits."])%list).
Proof.
  intros Hline Hc Hlen Hps.
  apply (add_refused_run now line c args); assumption.
Qed.

Lemma reading_run (now : Calendar.datetime) (line c : string)
  (args : list string) (book : AddressBook) (out : list string) :
  Text.split line = c :: args ->
  Text.mem (Text.lower c) reading_commands = true ->
  final_state (main_body int_of_str now line book out) = book.
Proof.
  intros Hline Hc. unfold Text.mem, reading_commands in Hc. cbn [existsb] in Hc.
  repeat (apply orb_true_iff in Hc; destruct Hc as [Hc|Hc]);
    try discriminate; apply String.eqb_eq in Hc; dispatch Hline Hc;
    match goal with
    | |- final_state (?m book out) = book =>
        cut (read_only m); [intros Hro; exact (Hro book out)|]
    end.
  - apply read_only_bind; [apply read_only_print | intros; apply read_only_ret].
  - apply read_only_bind; [apply read_only_print | intros; apply read_only_ret].
  - apply read_only_bind; [apply read_only_print | intros; apply read_only_ret].
  - destruct args as [|n [|? ?]];
      try (apply read_only_bind; [apply read_only_print | intros; apply read_only_ret]).
    apply read_only_bind; [apply read_only_get|]. intros b.
    destruct (Dict.get n (data b)).
    + apply read_only_bind; [apply read_only_strs|]. intros ps.
      apply read_only_bind; [apply read_only_print | intros; apply read_only_ret].
    + apply read_only_bind; [apply read_only_print | intros; apply read_only_ret].
  - apply read_only_bind; [apply read_only_get|]. intros b.
    apply read_only_bind; [|intros; apply read_only_ret].
    apply read_only_for_each. intros r [].
    apply read_only_bind; [apply read_only_Record_str|].
    intros s. apply read_only_print.
  - destruct args as [|n [|? ?]];
      try (apply read_only_bind; [apply read_only_print | intros; apply read_only_ret]).
    apply read_only_bind; [apply read_only_show_birthday | intros; apply read_only_ret].
  - destruct args as [|a args'].
    + apply read_only_bind; [apply read_only_birthdays | intros; apply read_only_ret].
    + apply read_only_bind; [apply read_only_lift|]. intros days.
      apply read_only_bind; [apply read_only_birthdays | intros; apply read_only_ret].
Qed.

(** X25.  The commands [close], [exit], [hello], [phone], [all],
    [show-birthday] and [birthdays] leave the book as it was, whatever their
    arguments and whether the iteration ends normally or with an
    exception. *)
Theorem main_body_reading (now : Calendar.datetime) (line c : string)
  (args : list string) (book : AddressBook) (out : list string) :
  Text.split line = c :: args ->
  Text.mem (Text.lower c) reading_commands = true ->
  final_state (main_body int_of_str now line book out) = book.
Proof. intros Hline Hc. apply (reading_run now line c args); assumption. Qed.

Lemma usage_run (now : Calendar.datetime) (line c msg : string)
  (args : list string) (book : AddressBook) (out : list string) :
  Text.split line = c :: args ->
  usage (Text.lower c) args = Some msg ->
  main_body int_of_str now line book out
  = (Return Continue, book, (out ++ [msg])%list).
Proof.
  intros Hline Hu. unfold usage in Hu.
  destruct (String.eqb_spec (Text.lower c) "add") as [Hc|_].
  { dispatch Hline Hc.
    destruct args as [|a [|b l]]; cbn in Hu; try discriminate;
      injection Hu as <-; reflexivity. }
  destruct (String.eqb_spec (Text.lower c) "change") as [Hc|_].
  { dispatch Hline Hc.
    destruct args as [|a [|b [|? ?]]]; cbn in Hu; try discriminate;
      injection Hu as <-; reflexivity. }
  destruct (Text.mem (Text.lower c) ["phone"; "show-birthday"; "del"]) eqn:Hm.
  { unfold Text.mem in Hm. cbn [existsb] in Hm.
    repeat (apply orb_true_iff in Hm; destruct Hm as [Hm|Hm]);
      try discriminate; apply String.eqb_eq in Hm; dispatch Hline Hm;
      (destruct args as [|a [|? ?]]; cbn in Hu; try discriminate;
       injection Hu as <-; reflexivity). }
  destruct (String.eqb_spec (Text.lower c) "add-birthday") as [Hc|_];
    [|discriminate].
  dispatch Hline Hc.
  destruct args as [|a [|b [|? ?]]]; cbn in Hu; try discriminate;
    injection Hu as <-; reflexivity.
Qed.

(** X26.  A command given a number of arguments it does not take ([add]
    fewer than two; [change] and [add-birthday] other than two; [phone],
    [show-birthday] and [del] other than one) prints its usage line and
    leaves the book as it was. *)
Theorem main_body_usage (now : Calendar.datetime) (line c msg : string)
  (args : list string) (book : AddressBook) (out : list string) :
  Text.split line = c :: args ->
  usage (Text.lower c) args = Some msg ->
  main_body int_of_str now line book out
  = (Return Continue, book, (out ++ [msg])%list).
Proof. intros Hline Hu. apply (usage_run now line c msg args); assumption. Qed.

(** X27.  A text that the guard of [change] lets through and [Phone]
    refuses, for a name of the book: after that [change], the command [all]
    ends with an [AttributeError], the record of the name having a phone
    without [value]. *)
Theorem change_then_all (now : Calendar.datetime) (n v line c : string)
  (args : list string) (book : AddressBook) (out out' : list string) :
  change_accepts v = true -> Phone_accepts v = false ->
  Dict.mem n (data book) = true ->
  Text.split line = c :: args -> Text.lower c = "all" ->
  result (main_body int_of_str now line
            (final_state (change n v book out)) out')
  = Raise AttributeError.
Proof.
  intros Hv Hp Hmem Hline Hc.
  destruct (proj1 (mem_get n (data book)) Hmem) as [r Hget].
  assert (E : final_state (change n v book out)
              = mkAddressBook (Dict.set n (with_phones r [no_attributes]) (data book))).
  { unfold change_accepts in Hv. apply negb_true_iff in Hv.
    unfold change. rewrite Hv.
    unfold bind at 1. unfold get at 1. rewrite Hmem.
    unfold bind at 1. unfold on_record. rewrite Hget.
    unfold bind at 1. unfold get at 1. unfold bind at 1. unfold put at 1.
    rewrite (add_phone_rejected _ v out Hp). reflexivity. }
  rewrite E. dispatch Hline Hc.
  unfold bind at 1. unfold get at 1. unfold bind at 1.
  pose proof (all_loop_raises
                (Dict.values (Dict.set n (with_phones r [no_attributes]) (data book)))
                (mkAddressBook (Dict.set n (with_phones r [no_attributes]) (data book)))
                out') as H.
  cbn [data].
  destruct (for_each _ tt _ _ out') as [[res st] o].
  unfold result in *. cbn [fst] in *. rewrite H; [reflexivity|].
  exists (with_phones r [no_attributes]). split; [apply in_values_set|].
  right. left. left. reflexivity.
Qed.

Lemma body_keeps_book_ok (now : Calendar.datetime) (line : string)
  (book : AddressBook) (out : list string) :
  book_ok book ->
  book_ok (final_state (main_body int_of_str now line book out)).
Proof.
  intros Hok.
  destruct (Text.split line) as [|c args] eqn:Hline.
  { unfold main_body, bind, parse_input. rewrite Hline. exact Hok. }
  destruct (Text.mem (Text.lower c) reading_commands) eqn:Hread.
  { rewrite (reading_run now line c args book out Hline Hread). exact Hok. }
  destruct (Text.mem (Text.lower c) commands) eqn:Hknown.
  2:{ rewrite (unknown_command_run now line c args book out Hline Hknown).
      exact Hok. }
  unfold Text.mem, reading_commands in Hread. cbn [existsb] in Hread.
  repeat (apply orb_false_iff in Hread; destruct Hread as [? Hread]).
  unfold Text.mem, commands in Hknown. cbn [existsb] in Hknown.
  repeat match goal with H : String.eqb _ _ = false |- _ =>
           rewrite H in Hknown; clear H end.
  cbn [orb] in Hknown.
  repeat (apply orb_true_iff in Hknown; destruct Hknown as [Hknown|Hknown]);
    try discriminate; apply String.eqb_eq in Hknown.
  - (* add *)
    destruct (usage (Text.lower c) args) as [msg|] eqn:Hu.
    { rewrite (usage_run now line c msg args book out Hline Hu). exact Hok. }
    unfold usage in Hu. rewrite Hknown in Hu. cbn in Hu.
    destruct args as [|n [|p ps]]; try discriminate.
    destruct (forallb Phone_accepts (p :: ps)) eqn:Hps.
    + rewrite (add_run now line c n p ps book out Hline Hknown Hps).
      apply book_ok_set; [exact Hok|]. split; [reflexivity | discriminate].
    + rewrite (add_refused_run now line c (n :: p :: ps) book out Hline Hknown);
        [exact Hok | simpl; lia | exact Hps].
  - (* change *)
    dispatch Hline Hknown.
    destruct args as [|n [|v [|? ?]]]; try exact Hok.
    unfold bind at 1.
    destruct (change_final n v book out) as [E | (r & ps & Hget & E)];
      destruct (change n v book out) as [[[[]|e] st] o];
      unfold final_state in *; cbn [fst snd] in *; subst st; try exact Hok;
      apply book_ok_set; try exact Hok;
      destruct (book_ok_get book n r Hok Hget) as [Hnm Hbd]; split; assumption.
  - (* add-birthday *)
    dispatch Hline Hknown.
    destruct args as [|n [|v [|? ?]]]; try exact Hok.
    unfold bind at 1.
    destruct (add_birthday_final now n v book out) as [E | (r & Hget & E)];
      destruct (add_birthday now n v book out) as [[[[]|e] st] o];
      unfold final_state in *; cbn [fst snd] in *; subst st; try exact Hok;
      apply book_ok_set; try exact Hok;
      destruct (book_ok_get book n r Hok Hget) as [Hnm Hbd];
      (split; [exact Hnm | discriminate]).
  - (* del *)
    dispatch Hline Hknown.
    destruct args as [|n [|? ?]]; try exact Hok.
    unfold bind at 1. unfold del_contact, bind, get.
    destruct (Dict.mem n (data book)); [|exact Hok].
    destruct Hok as [Hnd Hall]. split; cbn [data].
    + apply NoDup_keys_del, Hnd.
    + apply Forall_del, Hall.
Qed.

Lemma loop_keeps_book_ok (inputs : list (Calendar.datetime * string))
  (book : AddressBook) (out : list string) :
  book_ok book ->
  book_ok (final_state (main_loop int_of_str inputs book out)).
Proof.
  revert book out. induction inputs as [|[now line] inputs IH]; intros book out Hok.
  - exact Hok.
  - cbn [main_loop]. unfold bind.
    pose proof (body_keeps_book_ok now line book out Hok) as Hbody.
    destruct (main_body int_of_str now line book out) as [[[[|]|e] st] o];
      unfold final_state in Hbody; cbn [fst snd] in Hbody.
    + apply IH, Hbody.
    + exact Hbody.
    + exact Hbody.
Qed.

(** X28.  Started on a book in which each name is a key once, each record
    is filed under its own name and each birthday has its text (the empty
    book of a first run is one), the loop of [main] keeps the book so after
    any lines typed, however the loop ends; hence [birthdays] on the
    book it leaves ends normally for every clock and window. *)
Theorem main_loop_keeps_book_ok (inputs : list (Calendar.datetime * string))
  (book : AddressBook) (out : list string) :
  book_ok book ->
  book_ok (final_state (main_loop int_of_str inputs book out))
  /\ forall now days out',
       result (birthdays now days
                 (final_state (main_loop int_of_str inputs book out)) out')
       = Return tt.
Proof.
  intros Hok. pose proof (loop_keeps_book_ok inputs book out Hok) as H.
  split; [exact H|]. intros now days out'.
  pose proof (proj2 (birthdays_for_each now days
                       (Dict.values (data (final_state
                          (main_loop int_of_str inputs book out))))
                       [] (final_state (main_loop int_of_str inputs book out))
                       out') (book_ok_attributes _ H)) as [l Hl].
  unfold birthdays. unfold bind at 1. unfold birthdays_loop, bind at 1, get.
  destruct (for_each _ [] (birthdays_step now days) _ out') as [[res st'] o'].
  unfold result in Hl. cbn [fst] in Hl. subst res.
  rewrite print_lines. reflexivity.
Qed.

End MainFacts.

Lemma main_body_blank_line_witness :
  Str.all Text.isspace "   " = true
  /\ main_body no_int noon "   " book_ann [] = (Raise ValueError, book_ann, []).
Proof.
  split; [reflexivity|].
  exact (main_body_blank_line no_int noon "   " book_ann [] eq_refl).
Defined.


Lemma main_body_unknown_command_witness :
  Text.split "remove Ann" = ["remove"; "Ann"]
  /\ Text.mem (Text.lower "remove") commands = false
  /\ main_body no_int noon "remove Ann" book_ann []
     = (Return Continue, book_ann, ["Invalid command."]).
Proof.
  split; [reflexivity|]. split; [reflexivity|].
  exact (main_body_unknown_command no_int noon "remove Ann" "remove" ["Ann"]
           book_ann [] eq_refl eq_refl).
Defined.

Lemma main_body_add_witness :
  Text.split "add Ann 0123456789" = ["add"; "Ann"; "0123456789"]
  /\ Text.lower "add" = "add"
  /\ forallb Phone_accepts ["0123456789"] = true
  /\ main_body no_int noon "add Ann 0123456789" book_today_tomorrow []
     = (Return Continue,
        mkAddressBook
          [("Ann", mkRecord (phone_of "Ann") [phone_of "0123456789"] None);
           contact "Bob" "04.11.1990"],
        ["Contact 'Ann' added successfully."]).
Proof.
  split; [reflexivity|]. split; [reflexivity|]. split; [reflexivity|].
  exact (proj1 (main_body_add no_int noon "add Ann 0123456789" "add" "Ann"
                  "0123456789" [] book_today_tomorrow [] eq_refl eq_refl eq_refl)).
Defined.

Lemma main_body_add_refused_witness :
  Text.split "add Bob 0123456789 12345" = ["add"; "Bob"; "0123456789"; "12345"]
  /\ Text.lower "add" = "add"
  /\ (2 <= length ["Bob"; "0123456789"; "12345"])%nat
  /\ forallb Phone_accepts (tl ["Bob"; "0123456789"; "12345"]) = false
  /\ main_body no_int noon "add Bob 0123456789 12345" book_ann []
     = (Return Continue, book_ann, ["Phone number must be 10 digits."]).
Proof.
  assert (Hlen : (2 <= length ["Bob"; "0123456789"; "12345"])%nat)
    by (simpl; lia).
  split; [reflexivity|]. split; [reflexivity|]. split; [exact Hlen|].
  split; [reflexivity|].
  exact (main_body_add_refused no_int noon "add Bob 0123456789 12345" "add"
           ["Bob"; "0123456789"; "12345"] book_ann [] eq_refl eq_refl Hlen
           eq_refl).
Defined.

Lemma main_body_reading_witness :
  Text.split "All" = ["All"]
  /\ Text.mem (Text.lower "All") reading_commands = true
  /\ final_state (main_body no_int noon "All" book_ann []) = book_ann.
Proof.
  split; [reflexivity|]. split; [reflexivity|].
  exact (main_body_reading no_int noon "All" "All" [] book_ann [] eq_refl eq_refl).
Defined.

Lemma main_body_usage_witness :
  Text.split "del Ann Bob" = ["del"; "Ann"; "Bob"]
  /\ usage (Text.lower "del") ["Ann"; "Bob"] = Some "Please provide name."
  /\ main_body no_int noon "del Ann Bob" book_ann []
     = (Return Continue, book_ann, ["Please provide name."]).
Proof.
  split; [reflexivity|]. split; [reflexivity|].
  exact (main_body_usage no_int noon "del Ann Bob" "del" "Please provide name."
           ["Ann"; "Bob"] book_ann [] eq_refl eq_refl).
Defined.

Lemma change_then_all_witness :
  change_accepts superscript_phone = true
  /\ Phone_accepts superscript_phone = false
  /\ Dict.mem "Ann" (data book_ann) = true
  /\ Text.split "all" = ["all"]
  /\ Text.lower "all" = "all"
  /\ result (main_body no_int noon "all"
               (final_state (change "Ann" superscript_phone book_ann [])) [])
     = Raise AttributeError.
Proof.
  split; [reflexivity|]. split; [reflexivity|]. split; [reflexivity|].
  split; [reflexivity|]. split; [reflexivity|].
  exact (change_then_all no_int noon "Ann" superscript_phone "all" "all" []
           book_ann [] [] eq_refl eq_refl eq_refl eq_refl eq_refl).
Defined.

Lemma main_loop_keeps_book_ok_witness :
  book_ok empty_book
  /\ book_ok (final_state
                (main_loop no_int
                   [(noon, "add Bob 0123456789");
                    (noon, "add-birthday Bob 29.02.2000");
                    (noon, "change Bob 12345")]
                   empty_book [])).
Proof.
  assert (H : book_ok empty_book).
  { split; constructor. }
  split; [exact H|].
  exact (proj1 (main_loop_keeps_book_ok no_int
                  [(noon, "add Bob 0123456789");
                   (noon, "add-birthday Bob 29.02.2000");
                   (noon, "change Bob 12345")]
                  empty_book [] H)).
Defined.
